(** * The agent-pod reconciler of the workflow controller

    A shallow embedding of [workflow/controller/agent.go]: the derived
    agent-pod name, the pod status assessor, plugin discovery, the
    synthesis and idempotent creation of the agent pod, and the reconcile
    pass that composes them.

    Conventions of the embedding.
    - Go strings are [string]; a Go slice is a [list] (the nil slice is
      the empty list); a [map[string]string] is a [gmap string string],
      and reading an absent key yields the empty string as in Go.
    - A pointer that may be nil is an [option]; dereferencing nil is the
      [Panic] outcome.
    - The collaborators of the controller (pod informer store, the
      configuration-object lister, the pod creation API, the workflow
      error setter) answer through functions carried by the controller
      record; every call made to them is recorded in a trace, in program
      order.
    - Logging statements return nothing and reach none of these
      collaborators; they are left out. *)

From Stdlib Require Import ZArith Ascii String List.
From stdpp Require Import base option list strings gmap pretty.

Open Scope string_scope.
Open Scope list_scope.

(** ** Errors *)

(** Go [error] values.  The constructors follow the places where agent.go
    builds or forwards an error; a collaborator's own error carries the
    reason that [apierr.IsAlreadyExists] inspects. *)
Inductive error : Type :=
| ErrCollaborator (reason : string) (text : string)
    (* an error value handed back by a collaborator *)
| ErrInformerStore (cause : error)
    (* fmt.Errorf("failed to get pod from informer store: %w", err) *)
| ErrParse (v : string) (cause : error)
    (* fmt.Errorf("failed to parse %q: %w", v, err) *)
| ErrCreateAgentPod (cause : error)
    (* errors.InternalWrapError(fmt.Errorf("failed to create Agent pod. Reason: %v", err)) *)
| ErrAgentPodFailed (message : string).
    (* fmt.Errorf("agent pod failed with reason %s", message) *)

(** Results of fallible calls whose Go signature is [(T, error)] and
    whose value is only used when the error is nil. *)
Inductive result (A : Type) : Type :=
| Ok (a : A)
| Err (e : error).
Arguments Ok {A} a.
Arguments Err {A} e.

Module apierr.
  (** Modelled from the spec: the reason string of the Kubernetes API
      machinery (a library outside the repository) for the "already
      exists" failure of a creation call. *)
Definition StatusReasonAlreadyExists : string := "AlreadyExists".

Definition IsAlreadyExists (err : error) : bool :=
    match err with
    | ErrCollaborator reason _ => bool_decide (reason = StatusReasonAlreadyExists)
    | _ => false
    end.
End apierr.

(** ** Kubernetes objects, restricted to the fields agent.go touches *)

Module apiv1.
  (** Modelled from the spec: the pod phases the spec's phase table
      names; the constants themselves belong to the Kubernetes API
      package. *)
Definition PodPending : string := "Pending".
Definition PodRunning : string := "Running".
Definition PodSucceeded : string := "Succeeded".
Definition PodFailed : string := "Failed".

Inductive RestartPolicy : Type :=
  | RestartPolicyUnset
  | RestartPolicyAlways
  | RestartPolicyOnFailure
  | RestartPolicyNever.

Record EnvVar : Type := mkEnvVar { envName : string; envValue : string }.

Record Container : Type := mkContainer {
    containerName : string;
    containerImage : string;
    containerCommand : list string;
    containerArgs : list string;
    containerEnv : list EnvVar
  }.

Record ConfigMap : Type := mkConfigMap {
    cmName : string;
    cmData : gmap string string
  }.
End apiv1.

Module metav1.
Record OwnerReference : Type := mkOwnerReference {
    ownerAPIVersion : string;
    ownerKind : string;
    ownerName : string;
    ownerUID : string;
    ownerController : bool;
    ownerBlockOwnerDeletion : bool
  }.

Record ObjectMeta : Type := mkObjectMeta {
    Name : string;
    Namespace : string;
    Labels : gmap string string;
    OwnerReferences : list OwnerReference
  }.
End metav1.

Record PodSpec : Type := mkPodSpec {
  RestartPolicy : apiv1.RestartPolicy;
  ImagePullSecrets : list string;
  ServiceAccountName : string;
  Containers : list apiv1.Container
}.

Record PodStatus : Type := mkPodStatus {
  Phase : string;
  Message : string
}.

Record Pod : Type := mkPod {
  podMeta : metav1.ObjectMeta;
  podSpec : PodSpec;
  podStatus : PodStatus
}.

(** Go's map index expression [m[k]] on a [map[string]string]. *)
Definition index (m : gmap string string) (k : string) : string :=
  default "" (m !! k).

(** ** Workflows *)

Module wfv1.
  (** Modelled from the spec: the two workflow phases the assessor can
      recommend, "Failed" and "Error" (spec, phase table of the Pod
      Status Assessor). *)
Definition WorkflowFailed : string := "Failed".
Definition WorkflowError : string := "Error".

Record Template : Type := mkTemplate { templateName : string }.

Record WorkflowSpec : Type := mkWorkflowSpec {
    specServiceAccountName : string;
    specImagePullSecrets : list string
  }.

Record Workflow : Type := mkWorkflow {
    wfMeta : metav1.ObjectMeta;
    wfUID : string;
    wfSpec : WorkflowSpec
  }.

  (** 32-bit FNV-1a over the bytes of a string, with the wrap-around of
      the 32-bit multiplication written out. *)
Definition fnv32a_step (h : Z) (c : ascii) : Z :=
    (Z.lxor h (Z.of_N (N_of_ascii c)) * 16777619) mod 2 ^ 32.

Fixpoint fnv32a_from (h : Z) (s : string) : Z :=
    match s with
    | EmptyString => h
    | String c s' => fnv32a_from (fnv32a_step h c) s'
    end.

Definition fnv32a (s : string) : Z := fnv32a_from 2166136261 s.

  (** Modelled from the spec: [Workflow.NodeID] is declared outside the
      files under verification.  The spec asks for a deterministic
      derivation "incorporating the identifier".  Here: the workflow
      name itself for the node that bears the workflow's name, otherwise
      the workflow name, a dash, and the FNV-1a hash of the node name in
      decimal. *)
Definition NodeID (wf : Workflow) (nodeName : string) : string :=
    if bool_decide (nodeName = metav1.Name (wfMeta wf))
    then metav1.Name (wfMeta wf)
    else metav1.Name (wfMeta wf) +:+ "-" +:+ pretty (fnv32a nodeName).
End wfv1.

Module common.
  (** Modelled from the spec: package [common] is declared outside the
      files under verification.  The spec asks for labels carrying the
      workflow identifier, a completion flag and the controller-instance
      identifier, and for two environment variables of the main
      container, one for the workflow identifier and one for the plugin
      address list; these are the names given to them. *)
Definition LabelKeyWorkflow : string := "workflows.argoproj.io/workflow".
Definition LabelKeyCompleted : string := "workflows.argoproj.io/completed".
Definition LabelKeyControllerInstanceID : string :=
    "workflows.argoproj.io/controller-instanceid".
Definition EnvVarWorkflowName : string := "ARGO_WORKFLOW_NAME".
Definition EnvVarPluginAddresses : string := "ARGO_PLUGIN_ADDRESSES".
End common.

Module workflow.
  (** Modelled from the spec: group, version and kind of the workflow
      resource, used only to fill the owner back-reference. *)
Definition WorkflowKind : string := "Workflow".
Definition SchemeGroupVersion : string := "argoproj.io/v1alpha1".
End workflow.

(** [metav1.NewControllerRef]: the owner back-reference to the workflow. *)
Definition NewControllerRef (wf : wfv1.Workflow) (apiVersion kind : string)
  : metav1.OwnerReference :=
  {| metav1.ownerAPIVersion := apiVersion;
     metav1.ownerKind := kind;
     metav1.ownerName := metav1.Name (wfv1.wfMeta wf);
     metav1.ownerUID := wfv1.wfUID wf;
     metav1.ownerController := true;
     metav1.ownerBlockOwnerDeletion := true |}.

(** ** JSON serialization of the address list *)

Module json.
Definition quote : ascii := ascii_of_nat 34.
Definition backslash : ascii := ascii_of_nat 92.

Definition hexDigit (n : nat) : ascii :=
    if Nat.ltb n 10 then ascii_of_nat (48 + n) else ascii_of_nat (87 + n).

  (** One character of a JSON string literal: the quote and the
      backslash are escaped with a backslash, a control character is
      written as a four-digit unicode escape. *)
Definition escapeChar (c : ascii) : string :=
    if bool_decide (c = quote) then String backslash (String quote EmptyString)
    else if bool_decide (c = backslash)
         then String backslash (String backslash EmptyString)
    else if Nat.ltb (nat_of_ascii c) 32
         then String backslash
                (String "u" (String "0" (String "0"
                   (String (hexDigit (nat_of_ascii c / 16))
                      (String (hexDigit (nat_of_ascii c mod 16)) EmptyString)))))
    else String c EmptyString.

Fixpoint escape (s : string) : string :=
    match s with
    | EmptyString => EmptyString
    | String c s' => escapeChar c +:+ escape s'
    end.

Definition encodeString (s : string) : string :=
    String quote (escape s +:+ String quote EmptyString).

Fixpoint joinComma (l : list string) : string :=
    match l with
    | [] => EmptyString
    | [x] => x
    | x :: rest => x +:+ "," +:+ joinComma rest
    end.

Definition encodeStringArray (l : list string) : string :=
    "[" +:+ joinComma (map encodeString l) +:+ "]".
End json.

(** Modelled from the spec: [wfv1.MustMarshallJSON] is declared outside
    the files under verification; the spec's wire-level contract says
    the address list is "serialized as a JSON array of strings,
    positionally correlated with the sidecar container order". *)
Definition MustMarshallJSON (addresses : list string) : string :=
  json.encodeStringArray addresses.

(** ** The controller, its collaborators and the operation context *)

(** What the pod informer's store may hold under a key: a pod, or an
    object of another dynamic type, on which the type assertion to a
    pod pointer fails. *)
Inductive StoreObj : Type :=
| ObjPod (pod : Pod)
| ObjOther.

(** Outcome of [Pods(ns).Create]: with a nil error the created pod; with
    an error, the error and whatever the client put in the first
    result, possibly nil. *)
Inductive CreateResult : Type :=
| Created (pod : Pod)
| CreateFailed (result : option Pod) (err : error).

Record WorkflowController : Type := mkWorkflowController {
  namespace : string;
  plugins : bool;
  InstanceID : string;                      (* Config.InstanceID *)
  executorImage : string;
  podStoreGet : string -> option StoreObj * bool * option error;
      (* podInformer.GetStore().Get(cache.ExplicitKey(key)) *)
  getConfigMaps : string -> string -> result (list apiv1.ConfigMap);
  podsCreate : string -> Pod -> CreateResult
      (* kubeclientset.CoreV1().Pods(namespace).Create *)
}.

Record wfOperationCtx : Type := mkWfOperationCtx {
  wf : wfv1.Workflow;
  execWf : wfv1.Workflow;
  taskSet : gmap string wfv1.Template;
  controller : WorkflowController
}.

(** What the code takes from the Go runtime and from the YAML library:
    [yaml.Unmarshal] into a [[]string], and the order in which [range]
    visits the keys of a map, which Go leaves unspecified. *)
Record Runtime : Type := mkRuntime {
  yamlUnmarshal : string -> result (list string);
  rangeReversed : bool
}.

(** ** Calls to the collaborators *)

Inductive Call : Type :=
| CallStoreGet (key : string)
| CallGetConfigMaps (ns label : string)
| CallPodsCreate (ns : string) (pod : Pod)
| CallMarkWorkflowError (err : error).

(** A computation yields a value and the calls it made, in order. *)
Definition M (A : Type) : Type := A * list Call.

#[global] Instance M_ret : MRet M := fun A a => (a, []).
#[global] Instance M_bind : MBind M := fun A B f m =>
  let '(a, t1) := m in let '(b, t2) := f a in (b, t1 ++ t2).

Definition value {A} (m : M A) : A := fst m.
Definition calls {A} (m : M A) : list Call := snd m.

Definition storeGet (woc : wfOperationCtx) (key : string)
  : M (option StoreObj * bool * option error) :=
  (podStoreGet (controller woc) key, [CallStoreGet key]).

Definition listConfigMaps (woc : wfOperationCtx) (ns label : string)
  : M (result (list apiv1.ConfigMap)) :=
  (getConfigMaps (controller woc) ns label, [CallGetConfigMaps ns label]).

Definition createPod (woc : wfOperationCtx) (ns : string) (pod : Pod)
  : M CreateResult :=
  (podsCreate (controller woc) ns pod, [CallPodsCreate ns pod]).

(** [woc.markWorkflowError]: the workflow error setter, a collaborator
    declared outside agent.go; only the call is recorded. *)
Definition markWorkflowError (woc : wfOperationCtx) (err : error) : M unit :=
  (tt, [CallMarkWorkflowError err]).

Definition isMarkWorkflowError (c : Call) : bool :=
  match c with CallMarkWorkflowError _ => true | _ => false end.

(** ** agent.go *)

Definition getAgentPodName (woc : wfOperationCtx) : string :=
  wfv1.NodeID (wf woc) "agent" +:+ "-agent".

Definition isAgentPod (woc : wfOperationCtx) (pod : Pod) : bool :=
  bool_decide (metav1.Name (podMeta pod) = getAgentPodName woc).

Definition assessAgentPodStatus (pod : Pod) : string * string :=
  let phase := Phase (podStatus pod) in
  if bool_decide (phase = apiv1.PodSucceeded ∨ phase = apiv1.PodRunning
                  ∨ phase = apiv1.PodPending)
  then (EmptyString, EmptyString)
  else if bool_decide (phase = apiv1.PodFailed)
  then (wfv1.WorkflowFailed, Message (podStatus pod))
  else (wfv1.WorkflowError,
        "Unexpected pod phase for " +:+ metav1.Name (podMeta pod) +:+ ": " +:+ phase).

Definition updateAgentPodStatus (woc : wfOperationCtx) (pod : Pod) : M unit :=
  let '(newPhase, message) := assessAgentPodStatus pod in
  if bool_decide (newPhase = wfv1.WorkflowFailed ∨ newPhase = wfv1.WorkflowError)
  then markWorkflowError woc (ErrAgentPodFailed message)
  else mret tt.

(** [range] over the keys of a map: one of the two orders of the key
    list, chosen by the runtime. *)
Definition rangeKeys (rt : Runtime) (m : gmap string bool) : list string :=
  let keys := (map_to_list m).*1 in
  if rangeReversed rt then reverse keys else keys.

(** The optional "command" and "args" fields of a descriptor: absent
    leaves the nil slice, present is parsed by [yaml.Unmarshal]. *)
Definition parseField (rt : Runtime) (cm : apiv1.ConfigMap) (key : string)
  : result (list string) :=
  match apiv1.cmData cm !! key with
  | Some v =>
      match yamlUnmarshal rt v with
      | Ok parsed => Ok parsed
      | Err err => Err (ErrParse v err)
      end
  | None => Ok []
  end.

(** The inner loop of [getAgentPlugins], over the configuration objects
    of one namespace; [sidecars] and [addresses] are the slices built so
    far. *)
Fixpoint rangeConfigMaps (rt : Runtime) (cms : list apiv1.ConfigMap)
    (sidecars : list apiv1.Container) (addresses : list string)
  : result (list apiv1.Container * list string) :=
  match cms with
  | [] => Ok (sidecars, addresses)
  | cm :: rest =>
      match parseField rt cm "command" with
      | Err err => Err err
      | Ok command =>
          match parseField rt cm "args" with
          | Err err => Err err
          | Ok args =>
              let image := index (apiv1.cmData cm) "image" in
              let address := index (apiv1.cmData cm) "address" in
              rangeConfigMaps rt rest
                (sidecars ++ [ {| apiv1.containerName := apiv1.cmName cm;
                                  apiv1.containerImage := image;
                                  apiv1.containerCommand := command;
                                  apiv1.containerArgs := args;
                                  apiv1.containerEnv := [] |} ])
                (addresses ++ [address])
          end
      end
  end.

(** The outer loop of [getAgentPlugins], over the namespaces. *)
Fixpoint rangeNamespaces (rt : Runtime) (woc : wfOperationCtx)
    (namespaces : list string)
    (sidecars : list apiv1.Container) (addresses : list string)
  : M (list apiv1.Container * list string * option error) :=
  match namespaces with
  | [] => mret (sidecars, addresses, None)
  | ns :: rest =>
      cms ← listConfigMaps woc ns "AgentPlugin";
      match cms with
      | Err err => mret ([], [], Some err)
      | Ok cms =>
          match rangeConfigMaps rt cms sidecars addresses with
          | Err err => mret ([], [], Some err)
          | Ok (sidecars', addresses') =>
              rangeNamespaces rt woc rest sidecars' addresses'
          end
      end
  end.

Definition getAgentPlugins (rt : Runtime) (woc : wfOperationCtx)
  : M (list apiv1.Container * list string * option error) :=
  if plugins (controller woc) then
    let namespaces : gmap string bool :=
      <[metav1.Namespace (wfv1.wfMeta (wf woc)) := true]>
        (<[namespace (controller woc) := true]> ∅) in
    rangeNamespaces rt woc (rangeKeys rt namespaces) [] []
  else mret ([], [], None).

(** The main container of the agent pod. *)
Definition mainContainer (woc : wfOperationCtx) (pluginAddresses : list string)
  : apiv1.Container :=
  {| apiv1.containerName := "main";
     apiv1.containerImage := executorImage (controller woc);
     apiv1.containerCommand := ["argoexec"];
     apiv1.containerArgs := ["agent"];
     apiv1.containerEnv :=
       [ {| apiv1.envName := common.EnvVarWorkflowName;
            apiv1.envValue := metav1.Name (wfv1.wfMeta (wf woc)) |};
         {| apiv1.envName := common.EnvVarPluginAddresses;
            apiv1.envValue := MustMarshallJSON pluginAddresses |} ] |}.

(** The pod object [createAgentPod] builds before submitting it: the
    composite literal, then the two conditional assignments. *)
Definition newAgentPod (woc : wfOperationCtx) (podName : string)
    (pluginSidecars : list apiv1.Container) (pluginAddresses : list string) : Pod :=
  let labels : gmap string string :=
    <[common.LabelKeyCompleted := "false"]>
      (<[common.LabelKeyWorkflow := metav1.Name (wfv1.wfMeta (wf woc))]> ∅) in
  let labels :=
    if bool_decide (InstanceID (controller woc) ≠ EmptyString)
    then <[common.LabelKeyControllerInstanceID := InstanceID (controller woc)]> labels
    else labels in
  let serviceAccountName :=
    if bool_decide (wfv1.specServiceAccountName (wfv1.wfSpec (wf woc)) ≠ EmptyString)
    then wfv1.specServiceAccountName (wfv1.wfSpec (wf woc))
    else EmptyString in
  {| podMeta :=
       {| metav1.Name := podName;
          metav1.Namespace := metav1.Namespace (wfv1.wfMeta (wf woc));
          metav1.Labels := labels;
          metav1.OwnerReferences :=
            [NewControllerRef (wf woc) workflow.SchemeGroupVersion workflow.WorkflowKind] |};
     podSpec :=
       {| RestartPolicy := apiv1.RestartPolicyOnFailure;
          ImagePullSecrets := wfv1.specImagePullSecrets (wfv1.wfSpec (execWf woc));
          ServiceAccountName := serviceAccountName;
          Containers := pluginSidecars ++ [mainContainer woc pluginAddresses] |};
     podStatus := {| Phase := EmptyString; Message := EmptyString |} |}.

(** [createAgentPod] past the cache lookup: discovery, synthesis and the
    creation request (from the call of [getAgentPlugins] to the end of
    the function). *)
Definition createAgentPodOnMiss (rt : Runtime) (woc : wfOperationCtx)
    (podName : string) : M (option Pod * option error) :=
  '(pluginSidecars, pluginAddresses, err) ← getAgentPlugins rt woc;
  match err with
  | Some err => mret (None, Some err)
  | None =>
      let pod := newAgentPod woc podName pluginSidecars pluginAddresses in
      r ← createPod woc (metav1.Namespace (wfv1.wfMeta (wf woc))) pod;
      match r with
      | CreateFailed created err =>
          if apierr.IsAlreadyExists err
          then mret (created, None)
          else mret (None, Some (ErrCreateAgentPod err))
      | Created created => mret (Some created, None)
      end
  end.

Definition createAgentPod (rt : Runtime) (woc : wfOperationCtx)
  : M (option Pod * option error) :=
  let podName := getAgentPodName woc in
  '(obj, exists_, err) ←
    storeGet woc (metav1.Namespace (wfv1.wfMeta (wf woc)) +:+ "/" +:+ podName);
  match err with
  | Some err => mret (None, Some (ErrInformerStore err))
  | None =>
      match exists_, obj with
      | true, Some (ObjPod existing) => mret (Some existing, None)
      | _, _ => createAgentPodOnMiss rt woc podName
      end
  end.

(** How a call of [reconcileAgentPod] ends: it returns its error result,
    or it panics on a nil pointer dereference. *)
Inductive Outcome : Type :=
| Return (err : option error)
| Panic.

Definition reconcileAgentPod (rt : Runtime) (woc : wfOperationCtx) : M Outcome :=
  if bool_decide (size (taskSet woc) = 0) then mret (Return None)
  else
    '(pod, err) ← createAgentPod rt woc;
    match err with
    | Some err => mret (Return (Some err))
    | None =>
        match pod with
        | None => mret Panic
        | Some pod =>
            if bool_decide (Phase (podStatus pod) ≠ EmptyString)
            then _ ← updateAgentPodStatus woc pod; mret (Return None)
            else mret (Return None)
        end
    end.

(** ** util/tls/tls.go: TLS configurations for the servers *)

Module tlsutil.

(** The CA certificate, the certificate and the key within the
    Kubernetes secret. *)
Definition tlsCaSecretKey : string := "ca.crt".
Definition tlsCrtSecretKey : string := "tls.crt".
Definition tlsKeySecretKey : string := "tls.key".

(** Errors: those the libraries hand back, and the three [generate]
    builds around them. *)
Inductive tlsError : Type :=
| LibraryError (text : string)
| ErrGeneratePrivateKey (cause : tlsError)
    (* fmt.Errorf("failed to generate private key: %s", err) *)
| ErrGenerateSerialNumber (cause : tlsError)
    (* fmt.Errorf("failed to generate serial number: %s", err) *)
| ErrCreateCertificate (cause : tlsError).
    (* fmt.Errorf("failed to create certificate: %s", err) *)

Inductive res (A : Type) : Type :=
| Done (a : A)
| Failed (err : tlsError).
Arguments Done {A} a.
Arguments Failed {A} err.

(** [pem.Block], with the two fields the code fills. *)
Record Block : Type := mkBlock { blockType : string; blockBytes : list Byte.byte }.

(** The key usages of crypto/x509 that the template combines, as the
    bits of that package. *)
Definition KeyUsageDigitalSignature : Z := Z.shiftl 1 0.
Definition KeyUsageKeyEncipherment : Z := Z.shiftl 1 2.

Inductive ExtKeyUsage : Type :=
| ExtKeyUsageAny
| ExtKeyUsageServerAuth
| ExtKeyUsageClientAuth.

(** [time.Hour], in nanoseconds. *)
Definition Hour : Z := 3600 * 1000000000.

(** The libraries and the cluster the file talks to: the types it only
    passes around, and the calls it makes.  A call that draws
    randomness, reads the clock or the cluster is made at most once per
    run of the functions below, so its answer is a value. *)
Record Libs : Type := mkLibs {
  ECPrivateKey : Type;                  (* *ecdsa.PrivateKey *)
  ECPublicKey : Type;
  TLSCertificate : Type;                (* tls.Certificate *)
  CertPool : Type;                      (* *x509.CertPool *)
  Time : Type;                          (* time.Time *)
  IP : Type;                            (* net.IP *)
  ecdsaGenerateKey : res ECPrivateKey;  (* ecdsa.GenerateKey(elliptic.P256(), rand.Reader) *)
  publicKey : ECPrivateKey → ECPublicKey;
  timeNow : Time;
  timeAdd : Time → Z → Time;
  randInt : Z → res Z;                  (* rand.Int(rand.Reader, max) *)
  parseIP : string → option IP;         (* net.ParseIP, nil when not an address *)
  marshalECPrivateKey : ECPrivateKey → res (list Byte.byte);
  pemEncodeToMemory : option Block → list Byte.byte;
  x509KeyPair : list Byte.byte → list Byte.byte → res TLSCertificate;
  systemCertPool : res CertPool;
  newCertPool : CertPool;
  appendCertsFromPEM : CertPool → list Byte.byte → CertPool * bool;
  getSecrets : string → string → string → res (list Byte.byte)
      (* util.GetSecrets(ctx, client, namespace, name, key) *)
}.

(** [x509.Certificate], with the fields the template sets. *)
Record Certificate (lib : Libs) : Type := mkCertificate {
  SerialNumber : Z;
  Organization : list string;
  NotBefore : Time lib;
  NotAfter : Time lib;
  KeyUsage : Z;
  ExtKeyUsages : list ExtKeyUsage;
  BasicConstraintsValid : bool;
  IPAddresses : list (IP lib);
  DNSNames : list string
}.
Arguments mkCertificate {lib}.
Arguments SerialNumber {lib}.
Arguments Organization {lib}.
Arguments NotBefore {lib}.
Arguments NotAfter {lib}.
Arguments KeyUsage {lib}.
Arguments ExtKeyUsages {lib}.
Arguments BasicConstraintsValid {lib}.
Arguments IPAddresses {lib}.
Arguments DNSNames {lib}.

(** [x509.CreateCertificate(rand.Reader, template, parent, pub, priv)]:
    the one library call that takes the template, kept apart from
    [Libs] because its type mentions [Certificate]. *)
Definition CreateCertificate (lib : Libs) : Type :=
  Certificate lib → Certificate lib → ECPublicKey lib → ECPrivateKey lib
  → res (list Byte.byte).

(** [tls.Config], with the fields the code sets; an unset pool is nil. *)
Record Config (lib : Libs) : Type := mkConfig {
  RootCAs : option (CertPool lib);
  Certificates : list (TLSCertificate lib);
  MinVersion : Z;
  InsecureSkipVerify : bool
}.
Arguments mkConfig {lib}.
Arguments RootCAs {lib}.
Arguments Certificates {lib}.
Arguments MinVersion {lib}.
Arguments InsecureSkipVerify {lib}.

(** A [crypto.PrivateKey]: an ECDSA key, or a key of another type. *)
Inductive PrivateKey (lib : Libs) : Type :=
| ECDSAKey (k : ECPrivateKey lib)
| OtherKey.
Arguments ECDSAKey {lib} k.
Arguments OtherKey {lib}.

(** How a call ends: it returns, or the process exits ([os.Exit]). *)
Inductive Run (A : Type) : Type :=
| Returns (a : A)
| Exits (code : Z).
Arguments Returns {A} a.
Arguments Exits {A} code.

Definition pemBlockForKey (lib : Libs) (priv : PrivateKey lib) : Run (option Block) :=
  match priv with
  | ECDSAKey k =>
      match marshalECPrivateKey lib k with
      | Failed _ => Exits 2
      | Done b => Returns (Some {| blockType := "EC PRIVATE KEY"; blockBytes := b |})
      end
  | OtherKey => Returns None
  end.

(** The loop of [generate] over the hosts: an address goes to the IP
    addresses of the template, any other name to its DNS names. *)
Fixpoint addHosts (lib : Libs) (hosts : list string) (template : Certificate lib)
  : Certificate lib :=
  match hosts with
  | [] => template
  | h :: rest =>
      addHosts lib rest
        match parseIP lib h with
        | Some ip =>
            {| SerialNumber := SerialNumber template;
               Organization := Organization template;
               NotBefore := NotBefore template; NotAfter := NotAfter template;
               KeyUsage := KeyUsage template; ExtKeyUsages := ExtKeyUsages template;
               BasicConstraintsValid := BasicConstraintsValid template;
               IPAddresses := IPAddresses template ++ [ip];
               DNSNames := DNSNames template |}
        | None =>
            {| SerialNumber := SerialNumber template;
               Organization := Organization template;
               NotBefore := NotBefore template; NotAfter := NotAfter template;
               KeyUsage := KeyUsage template; ExtKeyUsages := ExtKeyUsages template;
               BasicConstraintsValid := BasicConstraintsValid template;
               IPAddresses := IPAddresses template;
               DNSNames := DNSNames template ++ [h] |}
        end
  end.

(** The template of [generate] before the hosts are added. *)
Definition newTemplate (lib : Libs) (serialNumber : Z) (notBefore notAfter : Time lib)
  : Certificate lib :=
  {| SerialNumber := serialNumber;
     Organization := ["ArgoProj"];
     NotBefore := notBefore;
     NotAfter := notAfter;
     KeyUsage := Z.lor KeyUsageKeyEncipherment KeyUsageDigitalSignature;
     ExtKeyUsages := [ExtKeyUsageServerAuth];
     BasicConstraintsValid := true;
     IPAddresses := [];
     DNSNames := [] |}.

Definition generate (lib : Libs) (createCertificate : CreateCertificate lib)
  : res (list Byte.byte * PrivateKey lib) :=
  let hosts := ["localhost"] in
  match ecdsaGenerateKey lib with
  | Failed err => Failed (ErrGeneratePrivateKey err)
  | Done privateKey =>
      let notBefore := timeNow lib in
      let notAfter := timeAdd lib notBefore (365 * 24 * Hour) in
      let serialNumberLimit := Z.shiftl 1 128 in
      match randInt lib serialNumberLimit with
      | Failed err => Failed (ErrGenerateSerialNumber err)
      | Done serialNumber =>
          let template :=
            addHosts lib hosts (newTemplate lib serialNumber notBefore notAfter) in
          match createCertificate template template
                  (publicKey lib privateKey) privateKey with
          | Failed err => Failed (ErrCreateCertificate err)
          | Done certBytes => Done (certBytes, ECDSAKey privateKey)
          end
      end
  end.

(** [generatePEM]: a new certificate and key as PEM encoded bytes. *)
Definition generatePEM (lib : Libs) (createCertificate : CreateCertificate lib)
  : Run (res (list Byte.byte * list Byte.byte)) :=
  match generate lib createCertificate with
  | Failed err => Returns (Failed err)
  | Done (certBytes, privateKey) =>
      let certpem :=
        pemEncodeToMemory lib
          (Some {| blockType := "CERTIFICATE"; blockBytes := certBytes |}) in
      match pemBlockForKey lib privateKey with
      | Exits code => Exits code
      | Returns block => Returns (Done (certpem, pemEncodeToMemory lib block))
      end
  end.

Definition GenerateX509KeyPair (lib : Libs) (createCertificate : CreateCertificate lib)
  : Run (res (TLSCertificate lib)) :=
  match generatePEM lib createCertificate with
  | Exits code => Exits code
  | Returns (Failed err) => Returns (Failed err)
  | Returns (Done (certpem, keypem)) =>
      match x509KeyPair lib certpem keypem with
      | Failed err => Returns (Failed err)
      | Done cert => Returns (Done cert)
      end
  end.

Definition GenerateX509KeyPairTLSConfig (lib : Libs)
    (createCertificate : CreateCertificate lib) (tlsMinVersion : Z)
  : Run (res (Config lib)) :=
  match GenerateX509KeyPair lib createCertificate with
  | Exits code => Exits code
  | Returns (Failed err) => Returns (Failed err)
  | Returns (Done cer) =>
      Returns (Done {| RootCAs := None;
                       Certificates := [cer];
                       MinVersion := tlsMinVersion;
                       InsecureSkipVerify := true |})
  end.

(** A read of one key of a secret, as recorded in the trace. *)
Record SecretRead : Type := mkSecretRead {
  readNamespace : string;
  readSecret : string;
  readKey : string
}.

(** A computation yields a value and the secret reads it made. *)
Definition T (A : Type) : Type := A * list SecretRead.

#[global] Instance T_ret : MRet T := fun A a => (a, []).
#[global] Instance T_bind : MBind T := fun A B f m =>
  let '(a, t1) := m in let '(b, t2) := f a in (b, t1 ++ t2).

Definition GetSecrets (lib : Libs) (ns name key : string) : T (res (list Byte.byte)) :=
  (getSecrets lib ns name key, [mkSecretRead ns name key]).

Definition GetServerTLSConfigFromSecret (lib : Libs)
    (tlsKubernetesSecretName : string) (tlsMinVersion : Z) (ns : string)
  : T (res (Config lib)) :=
  certpem ← GetSecrets lib ns tlsKubernetesSecretName tlsCrtSecretKey;
  match certpem with
  | Failed err => mret (Failed err)
  | Done certpem =>
      keypem ← GetSecrets lib ns tlsKubernetesSecretName tlsKeySecretKey;
      match keypem with
      | Failed err => mret (Failed err)
      | Done keypem =>
          match x509KeyPair lib certpem keypem with
          | Failed err => mret (Failed err)
          | Done cert =>
              let rootCAs :=
                match systemCertPool lib with
                | Done pool => pool
                | Failed _ => newCertPool lib
                end in
              capem ← GetSecrets lib ns tlsKubernetesSecretName tlsCaSecretKey;
              let rootCAs :=
                match capem with
                | Done capem => (appendCertsFromPEM lib rootCAs capem).1
                | Failed _ => rootCAs
                end in
              mret (Done {| RootCAs := Some rootCAs;
                            Certificates := [cert];
                            MinVersion := tlsMinVersion;
                            InsecureSkipVerify := false |})
          end
      end
  end.

End tlsutil.

(** ** Vocabulary of the statements *)

(** [sub] occurs in [s]. *)
Definition occursIn (sub s : string) : Prop :=
  ∃ pre post, s = pre +:+ sub +:+ post.

(** The same pod placed in another namespace. *)
Definition inNamespace (ns : string) (pod : Pod) : Pod :=
  {| podMeta :=
       {| metav1.Name := metav1.Name (podMeta pod);
          metav1.Namespace := ns;
          metav1.Labels := metav1.Labels (podMeta pod);
          metav1.OwnerReferences := metav1.OwnerReferences (podMeta pod) |};
     podSpec := podSpec pod;
     podStatus := podStatus pod |}.

(** Number of calls to the workflow error setter in a trace. *)
Definition markWorkflowErrorCalls (t : list Call) : nat :=
  length (filter (λ c, isMarkWorkflowError c = true) t).

(** The namespaces [getAgentPlugins] visits, in the order of the visit. *)
Definition visitedNamespaces (rt : Runtime) (woc : wfOperationCtx) : list string :=
  rangeKeys rt (<[metav1.Namespace (wfv1.wfMeta (wf woc)) := true]>
                  (<[namespace (controller woc) := true]> ∅)).

(** The configuration objects the lister returns for a namespace (none
    when the listing fails). *)
Definition listedIn (woc : wfOperationCtx) (ns : string) : list apiv1.ConfigMap :=
  match getConfigMaps (controller woc) ns "AgentPlugin" with
  | Ok cms => cms
  | Err _ => []
  end.

(** The plugin descriptors of a discovery, in the order enumerated. *)
Definition discovered (rt : Runtime) (woc : wfOperationCtx) : list apiv1.ConfigMap :=
  if plugins (controller woc)
  then concat (map (listedIn woc) (visitedNamespaces rt woc))
  else [].

Definition addressOf (cm : apiv1.ConfigMap) : string :=
  index (apiv1.cmData cm) "address".

(** Container [c] is the sidecar made from configuration object [cm]. *)
Definition sidecarOf (rt : Runtime) (cm : apiv1.ConfigMap) (c : apiv1.Container) : Prop :=
  apiv1.containerName c = apiv1.cmName cm
  ∧ apiv1.containerImage c = index (apiv1.cmData cm) "image"
  ∧ parseField rt cm "command" = Ok (apiv1.containerCommand c)
  ∧ parseField rt cm "args" = Ok (apiv1.containerArgs c).

(** The "command" or the "args" field of [cm] does not parse. *)
Definition malformed (rt : Runtime) (cm : apiv1.ConfigMap) : Prop :=
  (∃ err, parseField rt cm "command" = Err err)
  ∨ (∃ err, parseField rt cm "args" = Err err).

(** The configuration object [cm] has text under [key], and
    [yaml.Unmarshal] rejects that text as a string array. *)
Definition failsToParse (rt : Runtime) (cm : apiv1.ConfigMap) (key : string) : Prop :=
  ∃ v cause, apiv1.cmData cm !! key = Some v ∧ yamlUnmarshal rt v = Err cause.

(** The key under which [createAgentPod] looks the agent pod up. *)
Definition agentPodKey (woc : wfOperationCtx) : string :=
  metav1.Namespace (wfv1.wfMeta (wf woc)) +:+ "/" +:+ getAgentPodName woc.

(** The lookup answers without error and without a pod: nothing under
    the key, or an object that is not a pod. *)
Definition cacheMisses (woc : wfOperationCtx) : bool :=
  match podStoreGet (controller woc) (agentPodKey woc) with
  | (_, _, Some _) => false
  | (Some (ObjPod _), true, None) => false
  | _ => true
  end.

Definition isGetConfigMaps (c : Call) : bool :=
  match c with CallGetConfigMaps _ _ => true | _ => false end.

Definition isPodsCreate (c : Call) : bool :=
  match c with CallPodsCreate _ _ => true | _ => false end.

(** One listing call per namespace, with the plugin marker. *)
Definition listingCalls (nss : list string) : list Call :=
  map (λ ns, CallGetConfigMaps ns "AgentPlugin") nss.

(** A pod phase on which the assessor asks for no transition. *)
Definition healthyPhase (phase : string) : Prop :=
  phase = apiv1.PodSucceeded ∨ phase = apiv1.PodRunning ∨ phase = apiv1.PodPending.

(** The three reads of [GetServerTLSConfigFromSecret], in its order. *)
Definition secretReads (ns name : string) : list tlsutil.SecretRead :=
  [ tlsutil.mkSecretRead ns name tlsutil.tlsCrtSecretKey;
    tlsutil.mkSecretRead ns name tlsutil.tlsKeySecretKey;
    tlsutil.mkSecretRead ns name tlsutil.tlsCaSecretKey ].

(** The pool [GetServerTLSConfigFromSecret] starts from: the system
    pool, or a new pool when the system pool cannot be had. *)
Definition basePool (lib : tlsutil.Libs) : tlsutil.CertPool lib :=
  match tlsutil.systemCertPool lib with
  | tlsutil.Done pool => pool
  | tlsutil.Failed _ => tlsutil.newCertPool lib
  end.

(** The template [generate] hands to the certificate creation, for a
    drawn serial number. *)
Definition generatedTemplate (lib : tlsutil.Libs) (serialNumber : Z)
  : tlsutil.Certificate lib :=
  tlsutil.addHosts lib ["localhost"]
    (tlsutil.newTemplate lib serialNumber (tlsutil.timeNow lib)
       (tlsutil.timeAdd lib (tlsutil.timeNow lib) (365 * 24 * tlsutil.Hour))).

(** ** Fixtures: a workflow, pods and controllers used as concrete inputs *)

Definition helloWorkflow (ns : string) : wfv1.Workflow :=
  {| wfv1.wfMeta :=
       {| metav1.Name := "hello"; metav1.Namespace := ns;
          metav1.Labels := ∅; metav1.OwnerReferences := [] |};
     wfv1.wfUID := "0f6b";
     wfv1.wfSpec := {| wfv1.specServiceAccountName := EmptyString;
                       wfv1.specImagePullSecrets := [] |} |}.

Definition oneTask : gmap string wfv1.Template :=
  {[ "hello-123" := wfv1.mkTemplate "http" ]}.

Definition agentPodWith (ns phase message : string) : Pod :=
  {| podMeta := {| metav1.Name := "hello-1340600742-agent"; metav1.Namespace := ns;
                   metav1.Labels := ∅; metav1.OwnerReferences := [] |};
     podSpec := {| RestartPolicy := apiv1.RestartPolicyOnFailure;
                   ImagePullSecrets := []; ServiceAccountName := EmptyString;
                   Containers := [] |};
     podStatus := {| Phase := phase; Message := message |} |}.

(** A YAML decoder that knows two documents and rejects the rest. *)
Definition exampleUnmarshal (v : string) : result (list string) :=
  if bool_decide (v = "[sh, -c]") then Ok ["sh"; "-c"]
  else if bool_decide (v = "[serve]") then Ok ["serve"]
  else Err (ErrCollaborator "yaml" "cannot unmarshal into []string").

Definition exampleRuntime : Runtime :=
  {| yamlUnmarshal := exampleUnmarshal; rangeReversed := false |}.

(** A controller whose pod cache is empty, without plugins, and whose
    cluster accepts every creation, answering with the pod in phase
    Pending. *)
Definition plainController : WorkflowController :=
  {| namespace := "argo"; plugins := false; InstanceID := EmptyString;
     executorImage := "argoexec:latest";
     podStoreGet := λ _, (None, false, None);
     getConfigMaps := λ _ _, Ok [];
     podsCreate := λ _ pod,
       Created {| podMeta := podMeta pod; podSpec := podSpec pod;
                  podStatus := {| Phase := apiv1.PodPending; Message := EmptyString |} |} |}.

(** A controller whose pod cache holds [pod] under every key. *)
Definition cachingController (pod : Pod) : WorkflowController :=
  {| namespace := "argo"; plugins := false; InstanceID := EmptyString;
     executorImage := "argoexec:latest";
     podStoreGet := λ _, (Some (ObjPod pod), true, None);
     getConfigMaps := λ _ _, Ok [];
     podsCreate := λ _ pod', Created pod' |}.

(** The creation race: the cache has not seen the agent pod yet, the
    cluster already has it, and the client hands back a nil pod with the
    "already exists" error. *)
Definition racingController : WorkflowController :=
  {| namespace := "argo"; plugins := false; InstanceID := EmptyString;
     executorImage := "argoexec:latest";
     podStoreGet := λ _, (None, false, None);
     getConfigMaps := λ _ _, Ok [];
     podsCreate := λ _ _,
       CreateFailed None
         (ErrCollaborator apierr.StatusReasonAlreadyExists
            "pods hello-1340600742-agent already exists") |}.

(** The same race seen through a client that hands back an empty pod
    object, instead of nil, together with the error. *)
Definition emptyPod : Pod :=
  {| podMeta := {| metav1.Name := EmptyString; metav1.Namespace := EmptyString;
                   metav1.Labels := ∅; metav1.OwnerReferences := [] |};
     podSpec := {| RestartPolicy := apiv1.RestartPolicyUnset;
                   ImagePullSecrets := []; ServiceAccountName := EmptyString;
                   Containers := [] |};
     podStatus := {| Phase := EmptyString; Message := EmptyString |} |}.

Definition racingControllerEmptyPod : WorkflowController :=
  {| namespace := "argo"; plugins := false; InstanceID := EmptyString;
     executorImage := "argoexec:latest";
     podStoreGet := λ _, (None, false, None);
     getConfigMaps := λ _ _, Ok [];
     podsCreate := λ _ _,
       CreateFailed (Some emptyPod)
         (ErrCollaborator apierr.StatusReasonAlreadyExists
            "pods hello-1340600742-agent already exists") |}.

Definition slackPlugin : apiv1.ConfigMap :=
  {| apiv1.cmName := "slack";
     apiv1.cmData := {[ "image" := "img1"; "address" := "10.0.0.1:50051";
                        "command" := "[sh, -c]" ]} |}.

Definition mailPlugin : apiv1.ConfigMap :=
  {| apiv1.cmName := "mail";
     apiv1.cmData := {[ "image" := "img2"; "address" := "10.0.0.2:50051";
                        "args" := "[serve]" ]} |}.

Definition brokenPlugin : apiv1.ConfigMap :=
  {| apiv1.cmName := "broken";
     apiv1.cmData := {[ "image" := "img3"; "address" := "10.0.0.3:50051";
                        "args" := "serve --now" ]} |}.

Definition brokenCommandPlugin : apiv1.ConfigMap :=
  {| apiv1.cmName := "broken-command";
     apiv1.cmData := {[ "image" := "img4"; "address" := "10.0.0.4:50051";
                        "command" := "sh -c"; "args" := "[serve]" ]} |}.

(** A controller in namespace "argo" with plugins enabled: [own] are
    the descriptors of its namespace, [others] those of every other
    namespace; the cache is empty and the cluster accepts every
    creation. *)
Definition pluginController (own others : list apiv1.ConfigMap) : WorkflowController :=
  {| namespace := "argo"; plugins := true; InstanceID := "blue";
     executorImage := "argoexec:latest";
     podStoreGet := λ _, (None, false, None);
     getConfigMaps := λ ns _, if bool_decide (ns = "argo") then Ok own else Ok others;
     podsCreate := λ _ pod, Created pod |}.

(** A controller whose pod cache fails on every lookup. *)
Definition brokenStoreController : WorkflowController :=
  {| namespace := "argo"; plugins := false; InstanceID := EmptyString;
     executorImage := "argoexec:latest";
     podStoreGet := λ _, (None, false, Some (ErrCollaborator "Internal" "store closed"));
     getConfigMaps := λ _ _, Ok [];
     podsCreate := λ _ pod, Created pod |}.

(** A controller whose cluster refuses the creation for a reason other
    than "already exists", handing back an empty pod with the error. *)
Definition forbiddingController : WorkflowController :=
  {| namespace := "argo"; plugins := false; InstanceID := EmptyString;
     executorImage := "argoexec:latest";
     podStoreGet := λ _, (None, false, None);
     getConfigMaps := λ _ _, Ok [];
     podsCreate := λ _ _,
       CreateFailed (Some emptyPod) (ErrCollaborator "Forbidden" "pods is forbidden") |}.

(** A controller with plugins enabled whose lister answers for its own
    namespace and fails for every other one. *)
Definition halfListingController (own : list apiv1.ConfigMap) : WorkflowController :=
  {| namespace := "argo"; plugins := true; InstanceID := EmptyString;
     executorImage := "argoexec:latest";
     podStoreGet := λ _, (None, false, None);
     getConfigMaps := λ ns _,
       if bool_decide (ns = "argo") then Ok own
       else Err (ErrCollaborator "Timeout" "list configmaps timed out");
     podsCreate := λ _ pod, Created pod |}.

(** A controller whose pod cache is empty and whose cluster accepts the
    creation and answers with the pod already in phase Failed. *)
Definition crashingClusterController : WorkflowController :=
  {| namespace := "argo"; plugins := false; InstanceID := EmptyString;
     executorImage := "argoexec:latest";
     podStoreGet := λ _, (None, false, None);
     getConfigMaps := λ _ _, Ok [];
     podsCreate := λ _ pod,
       Created {| podMeta := podMeta pod; podSpec := podSpec pod;
                  podStatus := {| Phase := apiv1.PodFailed;
                                  Message := "ImagePullBackOff" |} |} |}.

(** Libraries for the TLS functions: keys are numbers, a key pair is
    the two PEM texts it was read from, a pool is the list of the PEM
    texts appended to it, the PEM encoding of a block is its bytes, no
    host name is an address, the system pool cannot be had, and the
    secret holds the keys of [secret]. *)
Definition exampleLibs (secret : gmap string (list Byte.byte))
    (marshal : Z → tlsutil.res (list Byte.byte)) : tlsutil.Libs :=
  {| tlsutil.ECPrivateKey := Z;
     tlsutil.ECPublicKey := Z;
     tlsutil.TLSCertificate := list Byte.byte * list Byte.byte;
     tlsutil.CertPool := list (list Byte.byte);
     tlsutil.Time := Z;
     tlsutil.IP := list Z;
     tlsutil.ecdsaGenerateKey := tlsutil.Done 7%Z;
     tlsutil.publicKey := λ k, (2 * k)%Z;
     tlsutil.timeNow := 1000%Z;
     tlsutil.timeAdd := Z.add;
     tlsutil.randInt := λ max, tlsutil.Done (max - 1)%Z;
     tlsutil.parseIP := λ _, None;
     tlsutil.marshalECPrivateKey := marshal;
     tlsutil.pemEncodeToMemory :=
       λ block, match block with Some b => tlsutil.blockBytes b | None => [] end;
     tlsutil.x509KeyPair := λ certpem keypem, tlsutil.Done (certpem, keypem);
     tlsutil.systemCertPool := tlsutil.Failed (tlsutil.LibraryError "no system pool");
     tlsutil.newCertPool := [];
     tlsutil.appendCertsFromPEM := λ pool pem, (pool ++ [pem], true);
     tlsutil.getSecrets := λ _ _ key,
       match secret !! key with
       | Some b => tlsutil.Done b
       | None => tlsutil.Failed (tlsutil.LibraryError "secret key not found")
       end |}.

Definition exampleCreateCertificate (secret : gmap string (list Byte.byte))
    (marshal : Z → tlsutil.res (list Byte.byte))
  : tlsutil.CreateCertificate (exampleLibs secret marshal) :=
  λ template parent pub priv, tlsutil.Done [Byte.x30; Byte.x82].

Definition serverSecret : gmap string (list Byte.byte) :=
  {[ "tls.crt" := [Byte.x01]; "tls.key" := [Byte.x02] ]}.

Definition wocOf (ns : string) (tasks : gmap string wfv1.Template)
    (c : WorkflowController) : wfOperationCtx :=
  {| wf := helloWorkflow ns; execWf := helloWorkflow ns;
     taskSet := tasks; controller := c |}.

(** ** The derived name and the membership test *)

Lemma NodeID_depends_on_name (wf1 wf2 : wfv1.Workflow) (nodeName : string) :
  metav1.Name (wfv1.wfMeta wf1) = metav1.Name (wfv1.wfMeta wf2) →
  wfv1.NodeID wf1 nodeName = wfv1.NodeID wf2 nodeName.
Proof.
  intros Hname. unfold wfv1.NodeID. now rewrite Hname.
Qed.

(** C9. The agent-pod name is a function of the workflow identifier
    alone: two operation contexts whose workflows bear the same name
    yield the same agent-pod name, whatever their namespaces, task sets,
    controllers or any other state. *)
Theorem getAgentPodName_deterministic (woc1 woc2 : wfOperationCtx) :
  metav1.Name (wfv1.wfMeta (wf woc1)) = metav1.Name (wfv1.wfMeta (wf woc2)) →
  getAgentPodName woc1 = getAgentPodName woc2.
Proof.
  intros Hname. unfold getAgentPodName.
  f_equal. now apply NodeID_depends_on_name.
Qed.

Lemma getAgentPodName_deterministic_witness :
  getAgentPodName (wocOf "prod" oneTask plainController)
  = getAgentPodName (wocOf "staging" ∅ racingController).
Proof.
  apply (getAgentPodName_deterministic
           (wocOf "prod" oneTask plainController)
           (wocOf "staging" ∅ racingController)).
  reflexivity.
Defined.

Example getAgentPodName_hello :
  getAgentPodName (wocOf "prod" oneTask plainController) = "hello-1340600742-agent".
Proof. vm_compute. reflexivity. Qed.

(** C10. [isAgentPod] holds exactly of the pods whose name is the
    workflow's agent-pod name, and moving a pod to any other namespace
    does not change the answer. *)
Theorem isAgentPod_name_only (woc : wfOperationCtx) (pod : Pod) :
  (isAgentPod woc pod = true ↔ metav1.Name (podMeta pod) = getAgentPodName woc)
  ∧ (∀ ns, isAgentPod woc (inNamespace ns pod) = isAgentPod woc pod).
Proof.
  split.
  - unfold isAgentPod. apply bool_decide_eq_true.
  - intros ns. reflexivity.
Qed.

Example isAgentPod_other_namespace :
  isAgentPod (wocOf "prod" oneTask plainController)
             (agentPodWith "somewhere-else" "Running" "") = true.
Proof. vm_compute. reflexivity. Qed.

(** ** The pod status assessor *)

Lemma append_nil_r (s : string) : s +:+ EmptyString = s.
Proof.
  induction s as [|c s IH]; [reflexivity|].
  change (String c (s +:+ EmptyString) = String c s). now f_equal.
Qed.

Lemma append_assoc (s1 s2 s3 : string) : (s1 +:+ s2) +:+ s3 = s1 +:+ s2 +:+ s3.
Proof.
  induction s1 as [|c s1 IH]; [reflexivity|].
  change (String c ((s1 +:+ s2) +:+ s3) = String c (s1 +:+ s2 +:+ s3)). now f_equal.
Qed.

Lemma occursIn_middle (pre sub post : string) : occursIn sub (pre +:+ sub +:+ post).
Proof. now exists pre, post. Qed.

Lemma occursIn_end (pre sub : string) : occursIn sub (pre +:+ sub).
Proof. exists pre, EmptyString. now rewrite append_nil_r. Qed.

Lemma unexpected_phase_message_mentions (name phase : string) :
  occursIn name ("Unexpected pod phase for " +:+ name +:+ ": " +:+ phase)
  ∧ occursIn phase ("Unexpected pod phase for " +:+ name +:+ ": " +:+ phase).
Proof.
  split.
  - apply occursIn_middle.
  - rewrite <- !append_assoc. apply occursIn_end.
Qed.

Lemma assess_no_transition (pod : Pod) :
  Phase (podStatus pod) = apiv1.PodSucceeded ∨ Phase (podStatus pod) = apiv1.PodRunning
  ∨ Phase (podStatus pod) = apiv1.PodPending →
  assessAgentPodStatus pod = (EmptyString, EmptyString).
Proof.
  intros H. unfold assessAgentPodStatus. now rewrite bool_decide_eq_true_2.
Qed.

Lemma assess_failed (pod : Pod) :
  Phase (podStatus pod) = apiv1.PodFailed →
  assessAgentPodStatus pod = (wfv1.WorkflowFailed, Message (podStatus pod)).
Proof.
  intros H. unfold assessAgentPodStatus. rewrite H. reflexivity.
Qed.

Lemma assess_unexpected (pod : Pod) :
  Phase (podStatus pod) ≠ apiv1.PodSucceeded →
  Phase (podStatus pod) ≠ apiv1.PodRunning →
  Phase (podStatus pod) ≠ apiv1.PodPending →
  Phase (podStatus pod) ≠ apiv1.PodFailed →
  assessAgentPodStatus pod
  = (wfv1.WorkflowError,
     "Unexpected pod phase for " +:+ metav1.Name (podMeta pod) +:+ ": "
       +:+ Phase (podStatus pod)).
Proof.
  intros Hs Hr Hp Hf. unfold assessAgentPodStatus.
  rewrite bool_decide_eq_false_2 by (intros [H|[H|H]]; contradiction).
  now rewrite bool_decide_eq_false_2.
Qed.

(** C3. The assessor follows the phase table on every pod: Succeeded,
    Running and Pending give the empty result; Failed gives
    (WorkflowFailed, the pod's status message); every other phase string,
    the empty one included, gives WorkflowError with the message
    "Unexpected pod phase for <name>: <phase>", in which both the pod's
    name and the raw phase occur. *)
Theorem assessAgentPodStatus_table (pod : Pod) :
  let phase := Phase (podStatus pod) in
  let name := metav1.Name (podMeta pod) in
  (phase ∈ [apiv1.PodSucceeded; apiv1.PodRunning; apiv1.PodPending] →
     assessAgentPodStatus pod = (EmptyString, EmptyString))
  ∧ (phase = apiv1.PodFailed →
     assessAgentPodStatus pod = (wfv1.WorkflowFailed, Message (podStatus pod)))
  ∧ (phase ∉ [apiv1.PodSucceeded; apiv1.PodRunning; apiv1.PodPending; apiv1.PodFailed] →
     assessAgentPodStatus pod
       = (wfv1.WorkflowError, "Unexpected pod phase for " +:+ name +:+ ": " +:+ phase)
     ∧ occursIn name (assessAgentPodStatus pod).2
     ∧ occursIn phase (assessAgentPodStatus pod).2)
  ∧ (phase = EmptyString →
     (assessAgentPodStatus pod).1 = wfv1.WorkflowError).
Proof.
  intros phase name. subst phase name.
  split; [|split; [|split]].
  - intros Hin. apply assess_no_transition.
    rewrite !elem_of_cons in Hin.
    destruct Hin as [H|[H|[H|H]]]; auto.
    now apply elem_of_nil in H.
  - apply assess_failed.
  - intros Hnot. rewrite !not_elem_of_cons in Hnot.
    destruct Hnot as (Hs & Hr & Hp & Hf & _).
    rewrite assess_unexpected by assumption.
    split; [reflexivity|]. apply unexpected_phase_message_mentions.
  - intros Hempty. rewrite assess_unexpected; [reflexivity|..];
      rewrite Hempty; discriminate.
Qed.

Example assess_failed_oomkilled :
  assessAgentPodStatus (agentPodWith "prod" "Failed" "OOMKilled")
  = ("Failed", "OOMKilled").
Proof. reflexivity. Qed.

Example assess_unknown :
  assessAgentPodStatus (agentPodWith "prod" "Unknown" "")
  = ("Error", "Unexpected pod phase for hello-1340600742-agent: Unknown").
Proof. reflexivity. Qed.

(** ** Traces *)

Lemma value_bind {A B} (m : M A) (f : A → M B) :
  value (m ≫= f) = value (f (value m)).
Proof.
  destruct m as [a t]. unfold mbind, M_bind, value. cbn.
  now destruct (f a).
Qed.

Lemma calls_bind {A B} (m : M A) (f : A → M B) :
  calls (m ≫= f) = calls m ++ calls (f (value m)).
Proof.
  destruct m as [a t]. unfold mbind, M_bind, calls, value. cbn.
  now destruct (f a).
Qed.

Lemma M_eta {A} (m : M A) : m = (value m, calls m).
Proof. now destruct m. Qed.

Lemma markWorkflowErrorCalls_app (t1 t2 : list Call) :
  markWorkflowErrorCalls (t1 ++ t2)
  = markWorkflowErrorCalls t1 + markWorkflowErrorCalls t2.
Proof.
  unfold markWorkflowErrorCalls. now rewrite filter_app, length_app.
Qed.

Lemma rangeNamespaces_no_mark (rt : Runtime) (woc : wfOperationCtx)
    (nss : list string) (sidecars : list apiv1.Container) (addresses : list string) :
  markWorkflowErrorCalls (calls (rangeNamespaces rt woc nss sidecars addresses)) = 0.
Proof.
  revert sidecars addresses.
  induction nss as [|ns rest IH]; intros sidecars addresses; [reflexivity|].
  cbn [rangeNamespaces]. rewrite calls_bind, markWorkflowErrorCalls_app.
  cbn [listConfigMaps calls value fst snd].
  destruct (getConfigMaps (controller woc) ns "AgentPlugin") as [cms|err];
    [|reflexivity].
  destruct (rangeConfigMaps rt cms sidecars addresses) as [[sc ad]|err];
    [|reflexivity].
  now rewrite IH.
Qed.

Lemma getAgentPlugins_no_mark (rt : Runtime) (woc : wfOperationCtx) :
  markWorkflowErrorCalls (calls (getAgentPlugins rt woc)) = 0.
Proof.
  unfold getAgentPlugins. destruct (plugins (controller woc)); [|reflexivity].
  apply rangeNamespaces_no_mark.
Qed.

Lemma createAgentPodOnMiss_no_mark (rt : Runtime) (woc : wfOperationCtx)
    (podName : string) :
  markWorkflowErrorCalls (calls (createAgentPodOnMiss rt woc podName)) = 0.
Proof.
  unfold createAgentPodOnMiss.
  rewrite calls_bind, markWorkflowErrorCalls_app, getAgentPlugins_no_mark.
  destruct (value (getAgentPlugins rt woc)) as [[sc ad] [err|]]; [reflexivity|].
  rewrite calls_bind, markWorkflowErrorCalls_app.
  cbn [createPod calls value fst snd].
  destruct (podsCreate _ _ _) as [created|created err]; [reflexivity|].
  now destruct (apierr.IsAlreadyExists err).
Qed.

Lemma createAgentPod_no_mark (rt : Runtime) (woc : wfOperationCtx) :
  markWorkflowErrorCalls (calls (createAgentPod rt woc)) = 0.
Proof.
  unfold createAgentPod. rewrite calls_bind, markWorkflowErrorCalls_app.
  cbn [storeGet calls value fst snd].
  destruct (podStoreGet _ _) as [[obj exists_] err].
  destruct err as [err|]; [reflexivity|].
  destruct exists_; [|apply createAgentPodOnMiss_no_mark].
  destruct obj as [[existing|]|];
    [reflexivity|apply createAgentPodOnMiss_no_mark..].
Qed.

(** Every call of [createAgentPod] starts with a lookup in the pod
    cache: a trace without such a lookup contains no run of it, hence no
    run of discovery or synthesis, which only it starts. *)
Lemma createAgentPod_starts_with_lookup (rt : Runtime) (woc : wfOperationCtx) :
  ∃ key rest, calls (createAgentPod rt woc) = CallStoreGet key :: rest.
Proof.
  unfold createAgentPod. rewrite calls_bind.
  cbn [storeGet calls value fst snd]. eauto.
Qed.

(** ** The reconcile pass *)

(** C8. With an empty task set the reconcile pass returns a nil error
    and is the bare return: its trace holds no call to the pod cache, to
    the configuration-object lister, to the creation API or to any other
    collaborator, so neither creation, discovery nor synthesis ran. *)
Theorem reconcileAgentPod_empty_taskSet (rt : Runtime) (woc : wfOperationCtx) :
  size (taskSet woc) = 0 →
  reconcileAgentPod rt woc = mret (Return None)
  ∧ value (reconcileAgentPod rt woc) = Return None
  ∧ calls (reconcileAgentPod rt woc) = [].
Proof.
  intros Hempty. unfold reconcileAgentPod.
  rewrite bool_decide_eq_true_2 by assumption. auto.
Qed.

Lemma reconcileAgentPod_empty_taskSet_witness :
  reconcileAgentPod exampleRuntime (wocOf "prod" ∅ plainController)
    = mret (Return None)
  ∧ value (reconcileAgentPod exampleRuntime (wocOf "prod" ∅ plainController))
    = Return None
  ∧ calls (reconcileAgentPod exampleRuntime (wocOf "prod" ∅ plainController)) = [].
Proof.
  apply (reconcileAgentPod_empty_taskSet exampleRuntime (wocOf "prod" ∅ plainController)).
  reflexivity.
Defined.

(** What the pass does once [createAgentPod] has returned a pod. *)
Lemma reconcileAgentPod_with_pod (rt : Runtime) (woc : wfOperationCtx) (pod : Pod) :
  size (taskSet woc) ≠ 0 →
  value (createAgentPod rt woc) = (Some pod, None) →
  reconcileAgentPod rt woc
  = (Return None,
     calls (createAgentPod rt woc)
     ++ (if bool_decide (Phase (podStatus pod) ≠ EmptyString)
         then calls (updateAgentPodStatus woc pod) else [])).
Proof.
  intros Htasks Hpod. unfold reconcileAgentPod.
  rewrite bool_decide_eq_false_2 by assumption.
  rewrite (M_eta (_ ≫= _)), value_bind, calls_bind, Hpod.
  case_bool_decide as Hphase.
  - rewrite value_bind, calls_bind. cbn [mret M_ret value calls fst snd].
    now rewrite app_nil_r.
  - reflexivity.
Qed.

(** C4, as the code has it.  When [createAgentPod] yields a pod whose
    phase is not empty, the pass returns a nil error, and: if the
    assessed phase is WorkflowFailed or WorkflowError, its last call, and
    its only call to the workflow error setter, carries the error
    "agent pod failed with reason <assessed message>"; if the assessment
    yields no transition, the setter is not called.  A pod whose phase is
    empty is not assessed and the setter is not called. *)
Theorem reconcileAgentPod_marks_failure_once
    (rt : Runtime) (woc : wfOperationCtx) (pod : Pod) :
  size (taskSet woc) ≠ 0 →
  value (createAgentPod rt woc) = (Some pod, None) →
  let newPhase := (assessAgentPodStatus pod).1 in
  let message := (assessAgentPodStatus pod).2 in
  let settled := Phase (podStatus pod) ≠ EmptyString in
  let failure := newPhase = wfv1.WorkflowFailed ∨ newPhase = wfv1.WorkflowError in
  value (reconcileAgentPod rt woc) = Return None
  ∧ (settled ∧ failure →
       calls (reconcileAgentPod rt woc)
       = calls (createAgentPod rt woc)
         ++ [CallMarkWorkflowError (ErrAgentPodFailed message)]
       ∧ markWorkflowErrorCalls (calls (reconcileAgentPod rt woc)) = 1)
  ∧ (¬ (settled ∧ failure) →
       calls (reconcileAgentPod rt woc) = calls (createAgentPod rt woc)
       ∧ markWorkflowErrorCalls (calls (reconcileAgentPod rt woc)) = 0).
Proof.
  intros Htasks Hpod newPhase message settled failure.
  subst newPhase message settled failure.
  rewrite (reconcileAgentPod_with_pod rt woc pod Htasks Hpod).
  cbn [value calls fst snd].
  split; [reflexivity|].
  unfold updateAgentPodStatus.
  destruct (assessAgentPodStatus pod) as [newPhase message]. cbn [fst snd].
  split.
  - intros [Hsettled Hfailure].
    rewrite bool_decide_eq_true_2 by assumption.
    rewrite bool_decide_eq_true_2 by assumption.
    cbn [markWorkflowError calls snd]. split; [reflexivity|].
    now rewrite markWorkflowErrorCalls_app, createAgentPod_no_mark.
  - intros Hnot.
    assert (Hcalls :
      (if bool_decide (Phase (podStatus pod) ≠ EmptyString)
       then calls (if bool_decide (newPhase = wfv1.WorkflowFailed
                                   ∨ newPhase = wfv1.WorkflowError)
                   then markWorkflowError woc (ErrAgentPodFailed message)
                   else mret tt)
       else []) = []).
    { case_bool_decide as Hsettled; [|reflexivity].
      case_bool_decide as Hfailure; [|reflexivity].
      exfalso. apply Hnot. now split. }
    rewrite Hcalls, app_nil_r. split; [reflexivity|].
    apply createAgentPod_no_mark.
Qed.

(** Scenario C of the spec: the cache holds the agent pod in phase
    Failed with message OOMKilled. *)
Lemma reconcileAgentPod_marks_failure_once_witness :
  let woc := wocOf "prod" oneTask
               (cachingController (agentPodWith "prod" "Failed" "OOMKilled")) in
  value (reconcileAgentPod exampleRuntime woc) = Return None
  ∧ calls (reconcileAgentPod exampleRuntime woc)
    = [CallStoreGet "prod/hello-1340600742-agent";
       CallMarkWorkflowError (ErrAgentPodFailed "OOMKilled")]
  ∧ markWorkflowErrorCalls (calls (reconcileAgentPod exampleRuntime woc)) = 1.
Proof.
  intros woc.
  destruct (reconcileAgentPod_marks_failure_once exampleRuntime woc
              (agentPodWith "prod" "Failed" "OOMKilled"))
    as (Hret & Hfail & _).
  - vm_compute. discriminate.
  - reflexivity.
  - split; [exact Hret|].
    destruct Hfail as [Hcalls Hone].
    + split; [discriminate | left; reflexivity].
    + split; [exact Hcalls | exact Hone].
Defined.

(** C4, as the claim words it, fails on a pod whose phase is empty: its
    assessed phase is WorkflowError, yet the pass that obtains it from
    the cache does not call the workflow error setter. *)
Lemma reconcileAgentPod_unsettled_pod_not_marked :
  let pod := agentPodWith "prod" EmptyString EmptyString in
  let woc := wocOf "prod" oneTask (cachingController pod) in
  (assessAgentPodStatus pod).1 = wfv1.WorkflowError
  ∧ value (createAgentPod exampleRuntime woc) = (Some pod, None)
  ∧ value (reconcileAgentPod exampleRuntime woc) = Return None
  ∧ markWorkflowErrorCalls (calls (reconcileAgentPod exampleRuntime woc)) = 0.
Proof. vm_compute. repeat split. Qed.

(** ** The creation race *)

(** On the "already exists" failure [createAgentPod] hands back the
    first result of the failed creation call with a nil error; it makes
    no further call. *)
Lemma createAgentPodOnMiss_already_exists (rt : Runtime) (woc : wfOperationCtx)
    (podName : string) (sidecars : list apiv1.Container) (addresses : list string)
    (result : option Pod) (err : error) :
  value (getAgentPlugins rt woc) = (sidecars, addresses, None) →
  podsCreate (controller woc) (metav1.Namespace (wfv1.wfMeta (wf woc)))
    (newAgentPod woc podName sidecars addresses) = CreateFailed result err →
  apierr.IsAlreadyExists err = true →
  createAgentPodOnMiss rt woc podName
  = ((result, None),
     calls (getAgentPlugins rt woc)
     ++ [CallPodsCreate (metav1.Namespace (wfv1.wfMeta (wf woc)))
           (newAgentPod woc podName sidecars addresses)]).
Proof.
  intros Hplugins Hcreate Hexists. unfold createAgentPodOnMiss.
  rewrite (M_eta (_ ≫= _)), value_bind, calls_bind, Hplugins.
  rewrite value_bind, calls_bind.
  cbn [createPod value calls fst snd]. rewrite Hcreate, Hexists.
  reflexivity.
Qed.

(** C1, the code at the creation race.  The cache misses, the creation
    call fails with "already exists" and a nil pod: [createAgentPod]
    returns that nil pod with a nil error, after the cache lookup and
    the creation call and nothing else; the existing pod is not
    fetched. *)
Theorem createAgentPod_race_returns_failed_call_result :
  let woc := wocOf "prod" oneTask racingController in
  createAgentPod exampleRuntime woc
  = ((None, None),
     [CallStoreGet "prod/hello-1340600742-agent";
      CallPodsCreate "prod" (newAgentPod woc "hello-1340600742-agent" [] [])]).
Proof. vm_compute. reflexivity. Qed.

(** C2, the code at the creation race: the nil pod that
    [createAgentPod] returned with a nil error is dereferenced by
    [reconcileAgentPod], which panics. *)
Theorem reconcileAgentPod_race_panics :
  let woc := wocOf "prod" oneTask racingController in
  value (createAgentPod exampleRuntime woc) = (None, None)
  ∧ value (reconcileAgentPod exampleRuntime woc) = Panic.
Proof. vm_compute. split; reflexivity. Qed.

(** With a client that fills the first result with an empty object, the
    pod returned is that empty object: it is not the agent pod, and the
    pass ends without looking at any status. *)
Example createAgentPod_race_empty_pod :
  let woc := wocOf "prod" oneTask racingControllerEmptyPod in
  value (createAgentPod exampleRuntime woc) = (Some emptyPod, None)
  ∧ isAgentPod woc emptyPod = false
  ∧ reconcileAgentPod exampleRuntime woc
    = (Return None,
       [CallStoreGet "prod/hello-1340600742-agent";
        CallPodsCreate "prod" (newAgentPod woc "hello-1340600742-agent" [] [])]).
Proof. vm_compute. repeat split. Qed.

(** ** Plugin discovery *)

Section Discovery.

Context (rt : Runtime) (woc : wfOperationCtx).

Lemma getAgentPlugins_unfold :
  getAgentPlugins rt woc
  = if plugins (controller woc)
    then rangeNamespaces rt woc (visitedNamespaces rt woc) [] []
    else mret ([], [], None).
Proof. reflexivity. Qed.

(** A field fails in the code exactly as the text under its key is
    rejected by [yaml.Unmarshal], and the error carries that text and
    that rejection. *)
Lemma parseField_err (cm : apiv1.ConfigMap) (key : string) (err : error) :
  parseField rt cm key = Err err →
  ∃ v cause, err = ErrParse v cause
             ∧ apiv1.cmData cm !! key = Some v
             ∧ yamlUnmarshal rt v = Err cause.
Proof.
  unfold parseField. destruct (apiv1.cmData cm !! key) as [v|]; [|discriminate].
  destruct (yamlUnmarshal rt v) as [parsed|cause] eqn:Hyaml; [discriminate|].
  intros [= <-]. now exists v, cause.
Qed.

Lemma parseField_failsToParse (cm : apiv1.ConfigMap) (key : string) :
  failsToParse rt cm key →
  ∃ v cause, parseField rt cm key = Err (ErrParse v cause)
             ∧ yamlUnmarshal rt v = Err cause.
Proof.
  intros (v & cause & Hfield & Hyaml). exists v, cause.
  unfold parseField. now rewrite Hfield, Hyaml.
Qed.

(** The two readings of a descriptor that does not parse agree: the
    code reports an error for "command" or "args" exactly when the text
    of one of the two fields is rejected by [yaml.Unmarshal]. *)
Lemma malformed_iff_failsToParse (cm : apiv1.ConfigMap) :
  malformed rt cm ↔ failsToParse rt cm "command" ∨ failsToParse rt cm "args".
Proof.
  unfold malformed. split.
  - intros [[err Herr]|[err Herr]];
      destruct (parseField_err _ _ _ Herr) as (v & cause & _ & Hfield & Hyaml);
      [left|right]; now exists v, cause.
  - intros [Hbad|Hbad];
      destruct (parseField_failsToParse _ _ Hbad) as (v & cause & Herr & _);
      [left|right]; exists (ErrParse v cause); exact Herr.
Qed.

(** The inner loop fails only with a parse error. *)
Lemma rangeConfigMaps_err (cms : list apiv1.ConfigMap)
    (sidecars : list apiv1.Container) (addresses : list string) (err : error) :
  rangeConfigMaps rt cms sidecars addresses = Err err →
  ∃ v cause, err = ErrParse v cause ∧ yamlUnmarshal rt v = Err cause.
Proof.
  revert sidecars addresses.
  induction cms as [|cm rest IH]; intros sidecars addresses; [discriminate|].
  cbn [rangeConfigMaps].
  destruct (parseField rt cm "command") as [command|e] eqn:Hcommand.
  - destruct (parseField rt cm "args") as [args|e] eqn:Hargs.
    + apply IH.
    + intros [= <-].
      destruct (parseField_err _ _ _ Hargs) as (v & cause & -> & _ & Hyaml).
      now exists v, cause.
  - intros [= <-].
    destruct (parseField_err _ _ _ Hcommand) as (v & cause & -> & _ & Hyaml).
    now exists v, cause.
Qed.

(** The inner loop fails as soon as one descriptor of the list is
    malformed, whatever was collected before. *)
Lemma rangeConfigMaps_malformed (cms : list apiv1.ConfigMap)
    (cm : apiv1.ConfigMap) (sidecars : list apiv1.Container) (addresses : list string) :
  cm ∈ cms → malformed rt cm →
  ∃ v cause, rangeConfigMaps rt cms sidecars addresses = Err (ErrParse v cause)
             ∧ yamlUnmarshal rt v = Err cause.
Proof.
  intros Hin Hbad. revert sidecars addresses.
  induction cms as [|cm' rest IH]; intros sidecars addresses.
  - now apply elem_of_nil in Hin.
  - cbn [rangeConfigMaps].
    destruct (parseField rt cm' "command") as [command|e] eqn:Hcommand.
    + destruct (parseField rt cm' "args") as [args|e] eqn:Hargs.
      * apply elem_of_cons in Hin as [->|Hin].
        -- destruct Hbad as [[e He]|[e He]]; congruence.
        -- now apply IH.
      * destruct (parseField_err _ _ _ Hargs) as (v & cause & -> & _ & Hyaml).
        now exists v, cause.
    + destruct (parseField_err _ _ _ Hcommand) as (v & cause & -> & _ & Hyaml).
      now exists v, cause.
Qed.

(** What the inner loop appends when it succeeds: one sidecar and one
    address per configuration object, in the order of the list. *)
Lemma rangeConfigMaps_ok (cms : list apiv1.ConfigMap)
    (sidecars sidecars' : list apiv1.Container) (addresses addresses' : list string) :
  rangeConfigMaps rt cms sidecars addresses = Ok (sidecars', addresses') →
  ∃ new, sidecars' = sidecars ++ new
         ∧ addresses' = addresses ++ map addressOf cms
         ∧ Forall2 (sidecarOf rt) cms new.
Proof.
  revert sidecars addresses.
  induction cms as [|cm rest IH]; intros sidecars addresses.
  - intros [= <- <-]. exists []. now rewrite !app_nil_r.
  - cbn [rangeConfigMaps].
    destruct (parseField rt cm "command") as [command|e] eqn:Hcommand; [|discriminate].
    destruct (parseField rt cm "args") as [args|e] eqn:Hargs; [|discriminate].
    intros Hrest. apply IH in Hrest as (new & -> & -> & Hnew).
    eexists (_ :: new). rewrite <- !app_assoc. cbn [app map].
    split; [reflexivity|]. split; [reflexivity|].
    constructor; [|exact Hnew]. now repeat split.
Qed.

Lemma rangeNamespaces_ok (nss : list string)
    (sidecars sidecars' : list apiv1.Container) (addresses addresses' : list string) :
  value (rangeNamespaces rt woc nss sidecars addresses) = (sidecars', addresses', None) →
  ∃ new, sidecars' = sidecars ++ new
         ∧ addresses' = addresses ++ map addressOf (concat (map (listedIn woc) nss))
         ∧ Forall2 (sidecarOf rt) (concat (map (listedIn woc) nss)) new.
Proof.
  revert sidecars addresses.
  induction nss as [|ns rest IH]; intros sidecars addresses.
  - intros [= <- <-]. exists []. now rewrite !app_nil_r.
  - cbn [rangeNamespaces map concat]. rewrite value_bind.
    cbn [listConfigMaps value fst]. unfold listedIn at 1 3.
    destruct (getConfigMaps (controller woc) ns "AgentPlugin") as [cms|err];
      [|discriminate].
    destruct (rangeConfigMaps rt cms sidecars addresses) as [[sc ad]|err] eqn:Hcms;
      [|discriminate].
    intros Hrest. apply IH in Hrest as (new & -> & -> & Hnew).
    apply rangeConfigMaps_ok in Hcms as (new0 & -> & -> & Hnew0).
    exists (new0 ++ new). rewrite map_app, <- !app_assoc.
    split; [reflexivity|]. split; [reflexivity|].
    now apply Forall2_app.
Qed.

(** A successful discovery pairs the descriptors it enumerated with the
    sidecars, and lists their addresses, all in the same order. *)
Lemma getAgentPlugins_ok
    (sidecars : list apiv1.Container) (addresses : list string) :
  value (getAgentPlugins rt woc) = (sidecars, addresses, None) →
  addresses = map addressOf (discovered rt woc)
  ∧ Forall2 (sidecarOf rt) (discovered rt woc) sidecars.
Proof.
  rewrite getAgentPlugins_unfold. unfold discovered.
  destruct (plugins (controller woc)).
  - intros Hok. apply rangeNamespaces_ok in Hok as (new & -> & -> & Hnew).
    now split.
  - intros [= <- <-]. split; [reflexivity|constructor].
Qed.

(** Whenever discovery fails, both of its lists are nil. *)
Lemma rangeNamespaces_err_no_list
    (nss : list string) (sidecars sidecars' : list apiv1.Container)
    (addresses addresses' : list string) (err : error) :
  value (rangeNamespaces rt woc nss sidecars addresses)
    = (sidecars', addresses', Some err) →
  sidecars' = [] ∧ addresses' = [].
Proof.
  revert sidecars addresses.
  induction nss as [|ns rest IH]; intros sidecars addresses; [discriminate|].
  cbn [rangeNamespaces]. rewrite value_bind. cbn [listConfigMaps value fst].
  destruct (getConfigMaps (controller woc) ns "AgentPlugin") as [cms|e].
  - destruct (rangeConfigMaps rt cms sidecars addresses) as [[sc ad]|e].
    + apply IH.
    + now intros [= <- <- _].
  - now intros [= <- <- _].
Qed.

Lemma getAgentPlugins_err_no_list
    (sidecars : list apiv1.Container) (addresses : list string) (err : error) :
  value (getAgentPlugins rt woc) = (sidecars, addresses, Some err) →
  sidecars = [] ∧ addresses = [].
Proof.
  rewrite getAgentPlugins_unfold. destruct (plugins (controller woc)).
  - apply rangeNamespaces_err_no_list.
  - discriminate.
Qed.

Lemma rangeNamespaces_malformed
    (pre : list string) (ns : string) (post : list string)
    (cms : list apiv1.ConfigMap) (cm : apiv1.ConfigMap)
    (sidecars : list apiv1.Container) (addresses : list string) :
  (∀ ns', ns' ∈ pre → ∃ l, getConfigMaps (controller woc) ns' "AgentPlugin" = Ok l) →
  getConfigMaps (controller woc) ns "AgentPlugin" = Ok cms →
  cm ∈ cms → malformed rt cm →
  ∃ v cause,
    value (rangeNamespaces rt woc (pre ++ ns :: post) sidecars addresses)
    = ([], [], Some (ErrParse v cause))
    ∧ yamlUnmarshal rt v = Err cause.
Proof.
  intros Hpre Hns Hin Hbad. revert sidecars addresses.
  induction pre as [|ns' pre IH]; intros sidecars addresses.
  - cbn [app rangeNamespaces]. rewrite value_bind.
    cbn [listConfigMaps value fst]. rewrite Hns.
    destruct (rangeConfigMaps_malformed cms cm sidecars addresses Hin Hbad)
      as (v & cause & -> & Hyaml).
    now exists v, cause.
  - cbn [app rangeNamespaces]. rewrite value_bind.
    cbn [listConfigMaps value fst].
    destruct (Hpre ns') as [l ->]; [left|].
    destruct (rangeConfigMaps rt l sidecars addresses) as [[sc ad]|err] eqn:Hl.
    + apply IH. intros ns'' Hin'. apply Hpre. now right.
    + destruct (rangeConfigMaps_err _ _ _ _ Hl) as (v & cause & -> & Hyaml).
      now exists v, cause.
Qed.

(** C5. With plugins enabled, let [cm] be a descriptor listed in a
    visited namespace, every namespace visited before it having been
    listed without error.  If [cm] has a "command" or an "args" field
    whose text [yaml.Unmarshal] rejects as a string array, then
    [getAgentPlugins] returns a parse error with a nil sidecar list and
    a nil address list: nothing of the descriptors processed before [cm]
    is returned.  The error carries a field text that [yaml.Unmarshal]
    rejected, together with that rejection. *)
Theorem getAgentPlugins_malformed_fails_whole_call
    (pre : list string) (ns : string) (post : list string)
    (cms : list apiv1.ConfigMap) (cm : apiv1.ConfigMap) :
  plugins (controller woc) = true →
  visitedNamespaces rt woc = pre ++ ns :: post →
  (∀ ns', ns' ∈ pre → ∃ l, getConfigMaps (controller woc) ns' "AgentPlugin" = Ok l) →
  getConfigMaps (controller woc) ns "AgentPlugin" = Ok cms →
  cm ∈ cms →
  failsToParse rt cm "command" ∨ failsToParse rt cm "args" →
  ∃ v cause,
    value (getAgentPlugins rt woc) = ([], [], Some (ErrParse v cause))
    ∧ yamlUnmarshal rt v = Err cause.
Proof.
  intros Hplugins Hvisit Hpre Hns Hin Hbad.
  apply malformed_iff_failsToParse in Hbad.
  rewrite getAgentPlugins_unfold, Hplugins, Hvisit.
  now apply (rangeNamespaces_malformed pre ns post cms cm).
Qed.

(** C6. In every successful discovery the address list is as long as
    the sidecar list, and at every index the sidecar was made from the
    descriptor enumerated at that index and the address is the one read
    from that same descriptor. *)
Theorem getAgentPlugins_addresses_follow_sidecars
    (sidecars : list apiv1.Container) (addresses : list string) :
  value (getAgentPlugins rt woc) = (sidecars, addresses, None) →
  length addresses = length sidecars
  ∧ ∀ (i : nat) (c : apiv1.Container),
      sidecars !! i = Some c →
      ∃ cm, discovered rt woc !! i = Some cm
            ∧ sidecarOf rt cm c
            ∧ addresses !! i = Some (index (apiv1.cmData cm) "address").
Proof.
  intros Hok. apply getAgentPlugins_ok in Hok as [-> Hpairs].
  split.
  - rewrite length_map. now apply Forall2_length in Hpairs.
  - intros i c Hc.
    destruct (Forall2_lookup_r _ _ _ _ _ Hpairs Hc) as (cm & Hcm & Hmade).
    exists cm. split; [exact Hcm|]. split; [exact Hmade|].
    change (map addressOf (discovered rt woc)) with (addressOf <$> discovered rt woc).
    now rewrite list_lookup_fmap, Hcm.
Qed.

End Discovery.

(** The controller's namespace holds a well-formed descriptor, visited
    first; the workflow's namespace holds a well-formed one and then one
    whose "command" is not a string array: the sidecars of the first two
    are not returned. *)
Lemma getAgentPlugins_malformed_fails_whole_call_witness :
  ∃ v cause,
    value (getAgentPlugins exampleRuntime
             (wocOf "prod" oneTask
                (pluginController [slackPlugin] [mailPlugin; brokenCommandPlugin])))
    = ([], [], Some (ErrParse v cause))
    ∧ yamlUnmarshal exampleRuntime v = Err cause.
Proof.
  apply (getAgentPlugins_malformed_fails_whole_call exampleRuntime
           (wocOf "prod" oneTask
              (pluginController [slackPlugin] [mailPlugin; brokenCommandPlugin]))
           ["argo"] "prod" [] [mailPlugin; brokenCommandPlugin] brokenCommandPlugin).
  - reflexivity.
  - vm_compute. reflexivity.
  - intros ns' Hin. exists [slackPlugin].
    apply list_elem_of_singleton in Hin. subst ns'. reflexivity.
  - reflexivity.
  - right. left.
  - left. exists "sh -c", (ErrCollaborator "yaml" "cannot unmarshal into []string").
    split; vm_compute; reflexivity.
Defined.

(** The two fields fail alike: an unparsable "command" and an
    unparsable "args" each end discovery with the parse error of that
    field and no list, after a descriptor that parsed. *)
Example getAgentPlugins_rejects_command_and_args :
  value (getAgentPlugins exampleRuntime
           (wocOf "prod" oneTask (pluginController [slackPlugin] [brokenCommandPlugin])))
  = ([], [], Some (ErrParse "sh -c"
                     (ErrCollaborator "yaml" "cannot unmarshal into []string")))
  ∧ value (getAgentPlugins exampleRuntime
             (wocOf "prod" oneTask (pluginController [slackPlugin] [brokenPlugin])))
    = ([], [], Some (ErrParse "serve --now"
                       (ErrCollaborator "yaml" "cannot unmarshal into []string"))).
Proof. vm_compute. split; reflexivity. Qed.

(** Scenario B of the spec: one descriptor in the controller's
    namespace, one in the workflow's. *)
Lemma getAgentPlugins_addresses_follow_sidecars_witness :
  let woc := wocOf "prod" oneTask (pluginController [slackPlugin] [mailPlugin]) in
  length ["10.0.0.1:50051"; "10.0.0.2:50051"] = 2
  ∧ ∀ (i : nat) (c : apiv1.Container),
      [ apiv1.mkContainer "slack" "img1" ["sh"; "-c"] [] [];
        apiv1.mkContainer "mail" "img2" [] ["serve"] [] ] !! i = Some c →
      ∃ cm, discovered exampleRuntime woc !! i = Some cm
            ∧ sidecarOf exampleRuntime cm c
            ∧ ["10.0.0.1:50051"; "10.0.0.2:50051"] !! i
              = Some (index (apiv1.cmData cm) "address").
Proof.
  intros woc.
  apply (getAgentPlugins_addresses_follow_sidecars exampleRuntime woc
           [ apiv1.mkContainer "slack" "img1" ["sh"; "-c"] [] [];
             apiv1.mkContainer "mail" "img2" [] ["serve"] [] ]
           ["10.0.0.1:50051"; "10.0.0.2:50051"]).
  vm_compute. reflexivity.
Defined.

(** ** Synthesis of the agent pod *)

Lemma rangeNamespaces_calls (rt : Runtime) (woc : wfOperationCtx) (nss : list string)
    (sidecars : list apiv1.Container) (addresses : list string) (c : Call) :
  c ∈ calls (rangeNamespaces rt woc nss sidecars addresses) →
  ∃ ns label, c = CallGetConfigMaps ns label.
Proof.
  revert sidecars addresses.
  induction nss as [|ns rest IH]; intros sidecars addresses.
  - intros Hin. now apply elem_of_nil in Hin.
  - cbn [rangeNamespaces]. rewrite calls_bind.
    cbn [listConfigMaps calls value fst snd].
    intros Hin. apply elem_of_cons in Hin as [->|Hin]; [eauto|].
    destruct (getConfigMaps (controller woc) ns "AgentPlugin") as [cms|err].
    + destruct (rangeConfigMaps rt cms sidecars addresses) as [[sc ad]|err].
      * eapply IH, Hin.
      * now apply elem_of_nil in Hin.
    + now apply elem_of_nil in Hin.
Qed.

Lemma getAgentPlugins_calls (rt : Runtime) (woc : wfOperationCtx) (c : Call) :
  c ∈ calls (getAgentPlugins rt woc) → ∃ ns label, c = CallGetConfigMaps ns label.
Proof.
  rewrite getAgentPlugins_unfold. destruct (plugins (controller woc)).
  - apply rangeNamespaces_calls.
  - intros Hin. now apply elem_of_nil in Hin.
Qed.

(** The only pod [createAgentPod] ever submits is the one it builds from
    the output of a successful discovery. *)
Lemma createAgentPod_submitted (rt : Runtime) (woc : wfOperationCtx)
    (ns : string) (pod : Pod) :
  CallPodsCreate ns pod ∈ calls (createAgentPod rt woc) →
  ∃ sidecars addresses,
    value (getAgentPlugins rt woc) = (sidecars, addresses, None)
    ∧ pod = newAgentPod woc (getAgentPodName woc) sidecars addresses.
Proof.
  assert (Hmiss : CallPodsCreate ns pod
                    ∈ calls (createAgentPodOnMiss rt woc (getAgentPodName woc)) →
    ∃ sidecars addresses,
      value (getAgentPlugins rt woc) = (sidecars, addresses, None)
      ∧ pod = newAgentPod woc (getAgentPodName woc) sidecars addresses).
  { unfold createAgentPodOnMiss. rewrite calls_bind.
    intros Hin. apply elem_of_app in Hin as [Hin|Hin].
    { apply getAgentPlugins_calls in Hin as (ns' & label & Heq). discriminate Heq. }
    destruct (value (getAgentPlugins rt woc)) as [[sc ad] [err|]].
    { now apply elem_of_nil in Hin. }
    rewrite calls_bind in Hin. cbn [createPod calls value fst snd] in Hin.
    apply elem_of_cons in Hin as [Heq|Hin].
    - injection Heq as _ ->. now exists sc, ad.
    - destruct (podsCreate _ _ _) as [created|created err];
        [|destruct (apierr.IsAlreadyExists err)];
        now apply elem_of_nil in Hin. }
  unfold createAgentPod. rewrite calls_bind.
  cbn [storeGet calls value fst snd].
  intros Hin. apply elem_of_cons in Hin as [Heq|Hin]; [discriminate Heq|].
  destruct (podStoreGet _ _) as [[obj exists_] [err|]].
  { now apply elem_of_nil in Hin. }
  destruct exists_; [|now apply Hmiss].
  destruct obj as [[existing|]|]; [|now apply Hmiss..].
  now apply elem_of_nil in Hin.
Qed.

(** C7. Every pod [createAgentPod] submits to the creation API has, as
    its containers, the sidecars discovery returned, in that order,
    followed by one container named "main"; the environment of that
    container is the workflow name under [EnvVarWorkflowName] and, under
    [EnvVarPluginAddresses], the JSON array of the discovered addresses
    in their order, which are as many as the sidecars; the restart
    policy of the pod is OnFailure. *)
Theorem createAgentPod_submits_sidecars_then_main
    (rt : Runtime) (woc : wfOperationCtx) (ns : string) (pod : Pod) :
  CallPodsCreate ns pod ∈ calls (createAgentPod rt woc) →
  ∃ sidecars addresses main,
    value (getAgentPlugins rt woc) = (sidecars, addresses, None)
    ∧ Containers (podSpec pod) = sidecars ++ [main]
    ∧ apiv1.containerName main = "main"
    ∧ apiv1.containerEnv main
      = [ apiv1.mkEnvVar common.EnvVarWorkflowName (metav1.Name (wfv1.wfMeta (wf woc)));
          apiv1.mkEnvVar common.EnvVarPluginAddresses
            ("[" +:+ json.joinComma (map json.encodeString addresses) +:+ "]") ]
    ∧ length addresses = length sidecars
    ∧ RestartPolicy (podSpec pod) = apiv1.RestartPolicyOnFailure.
Proof.
  intros Hin. apply createAgentPod_submitted in Hin as (sidecars & addresses & Hok & ->).
  exists sidecars, addresses, (mainContainer woc addresses).
  split; [exact Hok|]. repeat split.
  apply getAgentPlugins_ok in Hok as [-> Hpairs].
  rewrite length_map. now apply Forall2_length in Hpairs.
Qed.

(** Scenario B of the spec: two sidecars and the main container. *)
Lemma createAgentPod_submits_sidecars_then_main_witness :
  let woc := wocOf "prod" oneTask (pluginController [slackPlugin] [mailPlugin]) in
  let pod := newAgentPod woc "hello-1340600742-agent"
               [ apiv1.mkContainer "slack" "img1" ["sh"; "-c"] [] [];
                 apiv1.mkContainer "mail" "img2" [] ["serve"] [] ]
               ["10.0.0.1:50051"; "10.0.0.2:50051"] in
  ∃ sidecars addresses main,
    value (getAgentPlugins exampleRuntime woc) = (sidecars, addresses, None)
    ∧ Containers (podSpec pod) = sidecars ++ [main]
    ∧ apiv1.containerName main = "main"
    ∧ apiv1.containerEnv main
      = [ apiv1.mkEnvVar common.EnvVarWorkflowName (metav1.Name (wfv1.wfMeta (wf woc)));
          apiv1.mkEnvVar common.EnvVarPluginAddresses
            ("[" +:+ json.joinComma (map json.encodeString addresses) +:+ "]") ]
    ∧ length addresses = length sidecars
    ∧ RestartPolicy (podSpec pod) = apiv1.RestartPolicyOnFailure.
Proof.
  intros woc pod.
  apply (createAgentPod_submits_sidecars_then_main exampleRuntime woc "prod" pod).
  assert (Hcalls : calls (createAgentPod exampleRuntime woc)
                   = [CallStoreGet "prod/hello-1340600742-agent";
                      CallGetConfigMaps "argo" "AgentPlugin";
                      CallGetConfigMaps "prod" "AgentPlugin";
                      CallPodsCreate "prod" pod]).
  { vm_compute. reflexivity. }
  rewrite Hcalls. do 3 apply list_elem_of_further. apply list_elem_of_here.
Defined.

Example scenario_B_containers :
  let woc := wocOf "prod" oneTask (pluginController [slackPlugin] [mailPlugin]) in
  ∃ pod, last (calls (createAgentPod exampleRuntime woc)) = Some (CallPodsCreate "prod" pod)
         ∧ map apiv1.containerName (Containers (podSpec pod)) = ["slack"; "mail"; "main"].
Proof. eexists. vm_compute. split; reflexivity. Qed.

Example scenario_B_addresses :
  let q := String json.quote EmptyString in
  MustMarshallJSON ["10.0.0.1:50051"; "10.0.0.2:50051"]
  = "[" +:+ q +:+ "10.0.0.1:50051" +:+ q +:+ "," +:+ q +:+ "10.0.0.2:50051" +:+ q +:+ "]".
Proof. vm_compute. reflexivity. Qed.

(** ** The order of the visit *)

(** The namespaces map of [getAgentPlugins] has at most two keys, so
    the two orders [rangeKeys] offers are all the orders in which a
    [range] can visit them. *)
Lemma rangeKeys_any_order (rt : Runtime) (a b : string) (order : list string) :
  order ≡ₚ (map_to_list (<[a := true]> (<[b := true]> (∅ : gmap string bool)))).*1 →
  ∃ reversed,
    rangeKeys {| yamlUnmarshal := yamlUnmarshal rt; rangeReversed := reversed |}
      (<[a := true]> (<[b := true]> ∅)) = order.
Proof.
  set (m := <[a := true]> (<[b := true]> (∅ : gmap string bool))).
  assert (Hsize : (length (map_to_list m).*1 ≤ 2)%nat).
  { rewrite length_fmap, length_map_to_list. subst m.
    rewrite map_size_insert. rewrite map_size_insert, map_size_empty.
    rewrite lookup_empty. destruct (_ !! a); simpl; lia. }
  unfold rangeKeys. cbn [rangeReversed].
  destruct ((map_to_list m).*1) as [|x [|y [|z keys]]]; intros Hperm.
  - exists false. symmetry. now apply Permutation_nil, Permutation_sym.
  - exists false. symmetry. now apply Permutation_length_1_inv, Permutation_sym.
  - apply Permutation_sym, Permutation_length_2_inv in Hperm as [->| ->].
    + now exists false.
    + now exists true.
  - cbn in Hsize. lia.
Qed.

(** ** The paths of [createAgentPod] *)

(** Past the lookup, a miss continues with discovery and creation. *)
Lemma createAgentPod_on_miss (rt : Runtime) (woc : wfOperationCtx) :
  cacheMisses woc = true →
  createAgentPod rt woc
  = (value (createAgentPodOnMiss rt woc (getAgentPodName woc)),
     CallStoreGet (agentPodKey woc)
       :: calls (createAgentPodOnMiss rt woc (getAgentPodName woc))).
Proof.
  unfold cacheMisses, createAgentPod, agentPodKey. intros Hmiss.
  rewrite (M_eta (_ ≫= _)), value_bind, calls_bind.
  cbn [storeGet value calls fst snd app].
  destruct (podStoreGet _ _) as [[[[existing|]|] [|]] [err|]];
    try discriminate Hmiss; reflexivity.
Qed.

(** X1. When the pod cache holds a pod under the agent pod's key,
    [createAgentPod] returns that very pod with a nil error, and the
    lookup is its only call: no listing, no creation request. *)
Theorem createAgentPod_cache_hit (rt : Runtime) (woc : wfOperationCtx) (existing : Pod) :
  podStoreGet (controller woc) (agentPodKey woc) = (Some (ObjPod existing), true, None) →
  createAgentPod rt woc = ((Some existing, None), [CallStoreGet (agentPodKey woc)]).
Proof.
  unfold createAgentPod, agentPodKey. intros Hhit.
  rewrite (M_eta (_ ≫= _)), value_bind, calls_bind.
  cbn [storeGet value calls fst snd]. now rewrite Hhit.
Qed.

Lemma createAgentPod_cache_hit_witness :
  let pod := agentPodWith "prod" "Running" EmptyString in
  let woc := wocOf "prod" oneTask (cachingController pod) in
  createAgentPod exampleRuntime woc = ((Some pod, None), [CallStoreGet (agentPodKey woc)]).
Proof.
  intros pod woc. apply (createAgentPod_cache_hit exampleRuntime woc pod). reflexivity.
Defined.

(** X2. When the lookup in the pod cache fails, [createAgentPod] returns
    a nil pod and the lookup's error wrapped as an informer-store error,
    having made no other call; a pass over a non-empty task set returns
    that error and leaves the workflow unmarked. *)
Theorem createAgentPod_store_error (rt : Runtime) (woc : wfOperationCtx)
    (obj : option StoreObj) (exists_ : bool) (err : error) :
  podStoreGet (controller woc) (agentPodKey woc) = (obj, exists_, Some err) →
  createAgentPod rt woc
  = ((None, Some (ErrInformerStore err)), [CallStoreGet (agentPodKey woc)])
  ∧ (size (taskSet woc) ≠ 0 →
     reconcileAgentPod rt woc
     = (Return (Some (ErrInformerStore err)), [CallStoreGet (agentPodKey woc)])).
Proof.
  intros Hfail.
  assert (Hcreate : createAgentPod rt woc
            = ((None, Some (ErrInformerStore err)), [CallStoreGet (agentPodKey woc)])).
  { unfold createAgentPod, agentPodKey in *.
    rewrite (M_eta (_ ≫= _)), value_bind, calls_bind.
    cbn [storeGet value calls fst snd]. now rewrite Hfail. }
  split; [exact Hcreate|].
  intros Htasks. unfold reconcileAgentPod.
  rewrite bool_decide_eq_false_2 by assumption. now rewrite Hcreate.
Qed.

Lemma createAgentPod_store_error_witness :
  let woc := wocOf "prod" oneTask brokenStoreController in
  let err := ErrCollaborator "Internal" "store closed" in
  createAgentPod exampleRuntime woc
  = ((None, Some (ErrInformerStore err)), [CallStoreGet (agentPodKey woc)])
  ∧ (size (taskSet woc) ≠ 0 →
     reconcileAgentPod exampleRuntime woc
     = (Return (Some (ErrInformerStore err)), [CallStoreGet (agentPodKey woc)])).
Proof.
  intros woc err.
  apply (createAgentPod_store_error exampleRuntime woc None false err). reflexivity.
Defined.

(** X3. On a cache miss, a failing discovery ends [createAgentPod]: it
    returns a nil pod with discovery's error as it is, and its calls are
    the lookup and those of discovery, so no creation request is made. *)
Theorem createAgentPod_discovery_failure (rt : Runtime) (woc : wfOperationCtx)
    (sidecars : list apiv1.Container) (addresses : list string) (err : error) :
  cacheMisses woc = true →
  value (getAgentPlugins rt woc) = (sidecars, addresses, Some err) →
  createAgentPod rt woc
  = ((None, Some err),
     CallStoreGet (agentPodKey woc) :: calls (getAgentPlugins rt woc)).
Proof.
  intros Hmiss Hfail. rewrite (createAgentPod_on_miss rt woc Hmiss).
  unfold createAgentPodOnMiss. rewrite value_bind, calls_bind, Hfail.
  cbn [mret M_ret value calls fst snd]. now rewrite app_nil_r.
Qed.

Lemma createAgentPod_discovery_failure_witness :
  let woc := wocOf "prod" oneTask (pluginController [slackPlugin] [brokenPlugin]) in
  ∃ err,
    createAgentPod exampleRuntime woc
    = ((None, Some err),
       CallStoreGet (agentPodKey woc) :: calls (getAgentPlugins exampleRuntime woc)).
Proof.
  intros woc. eexists.
  apply (createAgentPod_discovery_failure exampleRuntime woc [] []).
  - reflexivity.
  - vm_compute. reflexivity.
Defined.

(** X4. On a cache miss with a successful discovery, a creation request
    refused for a reason other than "already exists" makes
    [createAgentPod] return a nil pod, whatever the client handed back
    with the error, and the refusal wrapped as a creation error; the
    creation request is its last call. *)
Theorem createAgentPod_creation_refused (rt : Runtime) (woc : wfOperationCtx)
    (sidecars : list apiv1.Container) (addresses : list string)
    (result : option Pod) (err : error) :
  cacheMisses woc = true →
  value (getAgentPlugins rt woc) = (sidecars, addresses, None) →
  podsCreate (controller woc) (metav1.Namespace (wfv1.wfMeta (wf woc)))
    (newAgentPod woc (getAgentPodName woc) sidecars addresses) = CreateFailed result err →
  apierr.IsAlreadyExists err = false →
  createAgentPod rt woc
  = ((None, Some (ErrCreateAgentPod err)),
     CallStoreGet (agentPodKey woc)
       :: calls (getAgentPlugins rt woc)
       ++ [CallPodsCreate (metav1.Namespace (wfv1.wfMeta (wf woc)))
             (newAgentPod woc (getAgentPodName woc) sidecars addresses)]).
Proof.
  intros Hmiss Hplugins Hcreate Hother. rewrite (createAgentPod_on_miss rt woc Hmiss).
  unfold createAgentPodOnMiss. rewrite value_bind, calls_bind, Hplugins.
  rewrite value_bind, calls_bind. cbn [createPod value calls fst snd].
  now rewrite Hcreate, Hother.
Qed.

Lemma createAgentPod_creation_refused_witness :
  let woc := wocOf "prod" oneTask forbiddingController in
  createAgentPod exampleRuntime woc
  = ((None, Some (ErrCreateAgentPod (ErrCollaborator "Forbidden" "pods is forbidden"))),
     CallStoreGet (agentPodKey woc)
       :: calls (getAgentPlugins exampleRuntime woc)
       ++ [CallPodsCreate "prod" (newAgentPod woc (getAgentPodName woc) [] [])]).
Proof.
  intros woc.
  apply (createAgentPod_creation_refused exampleRuntime woc [] [] (Some emptyPod));
    reflexivity.
Defined.

(** ** The namespaces of a discovery and its listing calls *)

Lemma rangeKeys_elem_of (rt : Runtime) (m : gmap string bool) (ns : string) :
  ns ∈ rangeKeys rt m ↔ is_Some (m !! ns).
Proof.
  assert (Hkeys : ns ∈ (map_to_list m).*1 ↔ is_Some (m !! ns)).
  { rewrite list_elem_of_fmap. split.
    - intros ([k v] & -> & Hin). apply elem_of_map_to_list in Hin. now exists v.
    - intros [v Hv]. exists (ns, v). split; [reflexivity|].
      now apply elem_of_map_to_list. }
  unfold rangeKeys. destruct (rangeReversed rt); [|exact Hkeys].
  now rewrite elem_of_reverse.
Qed.

Lemma rangeKeys_NoDup (rt : Runtime) (m : gmap string bool) : NoDup (rangeKeys rt m).
Proof.
  unfold rangeKeys. destruct (rangeReversed rt).
  - rewrite reverse_Permutation. apply NoDup_fst_map_to_list.
  - apply NoDup_fst_map_to_list.
Qed.

(** The namespaces map holds the controller's namespace and the
    workflow's namespace and no other key, each once: when the two are
    the same namespace the map has a single key. *)
Lemma visitedNamespaces_distinct (rt : Runtime) (woc : wfOperationCtx) :
  NoDup (visitedNamespaces rt woc)
  ∧ (∀ ns, ns ∈ visitedNamespaces rt woc
           ↔ ns = namespace (controller woc)
             ∨ ns = metav1.Namespace (wfv1.wfMeta (wf woc)))
  ∧ (namespace (controller woc) = metav1.Namespace (wfv1.wfMeta (wf woc)) →
     visitedNamespaces rt woc = [namespace (controller woc)]).
Proof.
  unfold visitedNamespaces. split; [apply rangeKeys_NoDup|]. split.
  - intros ns. rewrite rangeKeys_elem_of.
    rewrite lookup_insert. case_decide as Hwf.
    + split; [intros _; now right | intros _; now eexists].
    + rewrite lookup_insert. case_decide as Hctrl.
      * split; [intros _; now left | intros _; now eexists].
      * rewrite lookup_empty. split.
        -- intros [v Hv]. discriminate Hv.
        -- intros [->| ->]; contradiction.
  - intros <-. rewrite insert_insert_eq, insert_empty.
    unfold rangeKeys. rewrite map_to_list_singleton.
    now destruct (rangeReversed rt).
Qed.

Example visitedNamespaces_same_namespace :
  visitedNamespaces exampleRuntime (wocOf "argo" oneTask plainController) = ["argo"]
  ∧ visitedNamespaces exampleRuntime (wocOf "prod" oneTask plainController)
    = ["argo"; "prod"].
Proof. vm_compute. split; reflexivity. Qed.

Section DiscoveryRuns.

Context (rt : Runtime) (woc : wfOperationCtx).

Lemma parseField_wellformed (cm : apiv1.ConfigMap) :
  ¬ malformed rt cm →
  ∃ command args,
    parseField rt cm "command" = Ok command ∧ parseField rt cm "args" = Ok args.
Proof.
  unfold malformed. intros Hgood.
  destruct (parseField rt cm "command") as [command|e].
  - destruct (parseField rt cm "args") as [args|e]; [eauto|].
    exfalso. apply Hgood. right. now exists e.
  - exfalso. apply Hgood. left. now exists e.
Qed.

(** The inner loop succeeds on well-formed descriptors. *)
Lemma rangeConfigMaps_wellformed (cms : list apiv1.ConfigMap)
    (sidecars : list apiv1.Container) (addresses : list string) :
  (∀ cm, cm ∈ cms → ¬ malformed rt cm) →
  ∃ sidecars' addresses',
    rangeConfigMaps rt cms sidecars addresses = Ok (sidecars', addresses').
Proof.
  revert sidecars addresses.
  induction cms as [|cm rest IH]; intros sidecars addresses Hgood.
  - now exists sidecars, addresses.
  - cbn [rangeConfigMaps].
    destruct (parseField_wellformed cm) as (command & args & -> & ->).
    { apply Hgood. left. }
    apply IH. intros cm' Hin. apply Hgood. now right.
Qed.

(** The outer loop lists the namespaces in order and stops at the first
    failure: its calls are the listings of a prefix of the namespaces. *)
Lemma rangeNamespaces_calls_prefix (nss : list string)
    (sidecars : list apiv1.Container) (addresses : list string) :
  ∃ listed,
    calls (rangeNamespaces rt woc nss sidecars addresses) = listingCalls listed
    ∧ listed `prefix_of` nss.
Proof.
  revert sidecars addresses.
  induction nss as [|ns rest IH]; intros sidecars addresses.
  - exists []. split; [reflexivity|apply prefix_nil].
  - cbn [rangeNamespaces]. rewrite calls_bind.
    cbn [listConfigMaps calls value fst snd].
    destruct (getConfigMaps (controller woc) ns "AgentPlugin") as [cms|err].
    + destruct (rangeConfigMaps rt cms sidecars addresses) as [[sc ad]|err].
      * destruct (IH sc ad) as (listed & -> & Hprefix).
        exists (ns :: listed). split; [reflexivity|now apply prefix_cons].
      * exists [ns]. split; [reflexivity|]. now exists rest.
    + exists [ns]. split; [reflexivity|]. now exists rest.
Qed.

Lemma rangeNamespaces_complete (nss : list string)
    (sidecars : list apiv1.Container) (addresses : list string) :
  (∀ ns, ns ∈ nss → ∃ l, getConfigMaps (controller woc) ns "AgentPlugin" = Ok l) →
  (∀ cm, cm ∈ concat (map (listedIn woc) nss) → ¬ malformed rt cm) →
  ∃ sidecars' addresses',
    rangeNamespaces rt woc nss sidecars addresses
    = ((sidecars', addresses', None), listingCalls nss).
Proof.
  revert sidecars addresses.
  induction nss as [|ns rest IH]; intros sidecars addresses Hlist Hgood.
  - now exists sidecars, addresses.
  - cbn [rangeNamespaces map concat] in *.
    rewrite (M_eta (_ ≫= _)), value_bind, calls_bind.
    cbn [listConfigMaps calls value fst snd].
    unfold listedIn at 1 in Hgood.
    destruct (Hlist ns) as [cms Hcms]; [left|]. rewrite Hcms in *.
    destruct (rangeConfigMaps_wellformed cms sidecars addresses) as (sc & ad & ->).
    { intros cm Hin. apply Hgood, elem_of_app. now left. }
    destruct (IH sc ad) as (sc' & ad' & ->).
    { intros ns' Hin. apply Hlist. now right. }
    { intros cm Hin. apply Hgood, elem_of_app. now right. }
    now exists sc', ad'.
Qed.

Lemma rangeNamespaces_listing_failure
    (pre : list string) (ns : string) (post : list string) (err : error)
    (sidecars : list apiv1.Container) (addresses : list string) :
  (∀ ns', ns' ∈ pre → ∃ l, getConfigMaps (controller woc) ns' "AgentPlugin" = Ok l) →
  (∀ cm, cm ∈ concat (map (listedIn woc) pre) → ¬ malformed rt cm) →
  getConfigMaps (controller woc) ns "AgentPlugin" = Err err →
  rangeNamespaces rt woc (pre ++ ns :: post) sidecars addresses
  = (([], [], Some err), listingCalls (pre ++ [ns])).
Proof.
  revert sidecars addresses.
  induction pre as [|ns' pre IH]; intros sidecars addresses Hlist Hgood Hfail.
  - cbn [app rangeNamespaces].
    rewrite (M_eta (_ ≫= _)), value_bind, calls_bind.
    cbn [listConfigMaps calls value fst snd]. now rewrite Hfail.
  - cbn [app rangeNamespaces map concat] in *.
    rewrite (M_eta (_ ≫= _)), value_bind, calls_bind.
    cbn [listConfigMaps calls value fst snd].
    unfold listedIn at 1 in Hgood.
    destruct (Hlist ns') as [cms Hcms]; [left|]. rewrite Hcms in *.
    destruct (rangeConfigMaps_wellformed cms sidecars addresses) as (sc & ad & ->).
    { intros cm Hin. apply Hgood, elem_of_app. now left. }
    rewrite (IH sc ad); [reflexivity| | |exact Hfail].
    + intros ns'' Hin. apply Hlist. now right.
    + intros cm Hin. apply Hgood, elem_of_app. now right.
Qed.

(** X6. With plugins enabled, if every visited namespace is listed
    without error and no listed descriptor has a "command" or "args"
    field that fails to parse, discovery succeeds: it lists every
    visited namespace once, in the order of the visit, and returns one
    sidecar and one address per enumerated descriptor. *)
Theorem getAgentPlugins_succeeds_on_wellformed :
  plugins (controller woc) = true →
  (∀ ns, ns ∈ visitedNamespaces rt woc →
         ∃ l, getConfigMaps (controller woc) ns "AgentPlugin" = Ok l) →
  (∀ cm, cm ∈ discovered rt woc → ¬ malformed rt cm) →
  ∃ sidecars addresses,
    getAgentPlugins rt woc
    = ((sidecars, addresses, None), listingCalls (visitedNamespaces rt woc))
    ∧ length sidecars = length (discovered rt woc)
    ∧ length addresses = length (discovered rt woc).
Proof.
  intros Hplugins Hlist Hgood. unfold discovered in *.
  rewrite getAgentPlugins_unfold. rewrite Hplugins in *.
  destruct (rangeNamespaces_complete (visitedNamespaces rt woc) [] [] Hlist Hgood)
    as (sc & ad & Hrun).
  exists sc, ad. split; [exact Hrun|].
  assert (Hvalue : value (rangeNamespaces rt woc (visitedNamespaces rt woc) [] [])
                   = (sc, ad, None)) by now rewrite Hrun.
  apply rangeNamespaces_ok in Hvalue as (new & -> & -> & Hpairs).
  cbn [app]. rewrite length_map. split; [|reflexivity].
  symmetry. now apply Forall2_length in Hpairs.
Qed.

(** X7. With plugins enabled, when the listing of a visited namespace
    fails, after namespaces that were listed without error and held
    only well-formed descriptors, discovery returns the lister's error
    as it is, with nil lists, and lists no namespace after the failing
    one. *)
Theorem getAgentPlugins_listing_failure
    (pre : list string) (ns : string) (post : list string) (err : error) :
  plugins (controller woc) = true →
  visitedNamespaces rt woc = pre ++ ns :: post →
  (∀ ns', ns' ∈ pre → ∃ l, getConfigMaps (controller woc) ns' "AgentPlugin" = Ok l) →
  (∀ cm, cm ∈ concat (map (listedIn woc) pre) → ¬ malformed rt cm) →
  getConfigMaps (controller woc) ns "AgentPlugin" = Err err →
  getAgentPlugins rt woc = (([], [], Some err), listingCalls (pre ++ [ns])).
Proof.
  intros Hplugins Hvisit Hlist Hgood Hfail.
  rewrite getAgentPlugins_unfold, Hplugins, Hvisit.
  now apply rangeNamespaces_listing_failure.
Qed.

End DiscoveryRuns.

Lemma getAgentPlugins_succeeds_on_wellformed_witness :
  let woc := wocOf "prod" oneTask (pluginController [slackPlugin] [mailPlugin]) in
  ∃ sidecars addresses,
    getAgentPlugins exampleRuntime woc
    = ((sidecars, addresses, None), listingCalls (visitedNamespaces exampleRuntime woc))
    ∧ length sidecars = length (discovered exampleRuntime woc)
    ∧ length addresses = length (discovered exampleRuntime woc).
Proof.
  intros woc.
  apply (getAgentPlugins_succeeds_on_wellformed exampleRuntime woc).
  - reflexivity.
  - intros ns _. unfold woc, wocOf, pluginController.
    cbn [controller getConfigMaps]. case_bool_decide; eauto.
  - intros cm Hin.
    assert (Hd : discovered exampleRuntime woc = [slackPlugin; mailPlugin]).
    { vm_compute. reflexivity. }
    rewrite Hd in Hin.
    assert (Hcm : cm = slackPlugin ∨ cm = mailPlugin).
    { apply elem_of_cons in Hin as [->|Hin]; [now left|].
      apply elem_of_cons in Hin as [->|Hin]; [now right|].
      now apply elem_of_nil in Hin. }
    destruct Hcm as [-> | ->]; intros [[e He]|[e He]];
      vm_compute in He; discriminate He.
Defined.

Lemma getAgentPlugins_listing_failure_witness :
  let woc := wocOf "prod" oneTask (halfListingController [slackPlugin]) in
  getAgentPlugins exampleRuntime woc
  = (([], [], Some (ErrCollaborator "Timeout" "list configmaps timed out")),
     listingCalls (["argo"] ++ ["prod"])).
Proof.
  intros woc.
  apply (getAgentPlugins_listing_failure exampleRuntime woc ["argo"] "prod" []).
  - reflexivity.
  - vm_compute. reflexivity.
  - intros ns Hin. apply list_elem_of_singleton in Hin as ->. now exists [slackPlugin].
  - intros cm Hin.
    assert (Hd : concat (map (listedIn woc) ["argo"]) = [slackPlugin]).
    { vm_compute. reflexivity. }
    rewrite Hd in Hin.
    assert (Hcm : cm = slackPlugin).
    { apply elem_of_cons in Hin as [->|Hin]; [reflexivity|].
      now apply elem_of_nil in Hin. }
    subst cm. intros [[e He]|[e He]]; vm_compute in He; discriminate He.
  - reflexivity.
Defined.

(** ** The calls of one run of [createAgentPod] *)

Lemma getAgentPlugins_calls_prefix (rt : Runtime) (woc : wfOperationCtx) :
  ∃ listed,
    calls (getAgentPlugins rt woc) = listingCalls listed
    ∧ listed `prefix_of` visitedNamespaces rt woc.
Proof.
  rewrite getAgentPlugins_unfold. destruct (plugins (controller woc)).
  - apply rangeNamespaces_calls_prefix.
  - exists []. split; [reflexivity|apply prefix_nil].
Qed.

(** The calls past the lookup: listings, then at most one creation
    request, for the pod built from discovery's output. *)
Lemma createAgentPodOnMiss_calls (rt : Runtime) (woc : wfOperationCtx) :
  ∃ listed creations,
    calls (createAgentPodOnMiss rt woc (getAgentPodName woc))
    = listingCalls listed ++ creations
    ∧ listed `prefix_of` visitedNamespaces rt woc
    ∧ (creations = []
       ∨ ∃ sidecars addresses,
           value (getAgentPlugins rt woc) = (sidecars, addresses, None)
           ∧ creations
             = [CallPodsCreate (metav1.Namespace (wfv1.wfMeta (wf woc)))
                  (newAgentPod woc (getAgentPodName woc) sidecars addresses)]).
Proof.
  destruct (getAgentPlugins_calls_prefix rt woc) as (listed & Hlisted & Hprefix).
  unfold createAgentPodOnMiss. rewrite calls_bind, Hlisted.
  destruct (value (getAgentPlugins rt woc)) as [[sc ad] [err|]] eqn:Hplugins.
  - exists listed, []. split; [reflexivity|]. split; [exact Hprefix|now left].
  - rewrite calls_bind. cbn [createPod calls value fst snd].
    eexists listed, [_]. split; [|split; [exact Hprefix|right; now exists sc, ad]].
    f_equal. destruct (podsCreate _ _ _) as [created|created err];
      [|destruct (apierr.IsAlreadyExists err)]; reflexivity.
Qed.

Lemma createAgentPod_call_order_aux (rt : Runtime) (woc : wfOperationCtx) :
  ∃ listed creations,
    calls (createAgentPod rt woc)
    = CallStoreGet (agentPodKey woc) :: listingCalls listed ++ creations
    ∧ listed `prefix_of` visitedNamespaces rt woc
    ∧ (creations = []
       ∨ ∃ sidecars addresses,
           value (getAgentPlugins rt woc) = (sidecars, addresses, None)
           ∧ creations
             = [CallPodsCreate (metav1.Namespace (wfv1.wfMeta (wf woc)))
                  (newAgentPod woc (getAgentPodName woc) sidecars addresses)]).
Proof.
  destruct (cacheMisses woc) eqn:Hmiss.
  - rewrite (createAgentPod_on_miss rt woc Hmiss). cbn [calls snd].
    destruct (createAgentPodOnMiss_calls rt woc) as (listed & creations & -> & H).
    now exists listed, creations.
  - exists [], []. split; [|split; [apply prefix_nil|now left]].
    unfold cacheMisses in Hmiss. unfold createAgentPod. rewrite calls_bind.
    cbn [storeGet calls value fst snd]. fold (agentPodKey woc).
    destruct (podStoreGet _ _) as [[[[existing|]|] [|]] [err|]];
      try discriminate Hmiss; reflexivity.
Qed.

(** X8. Every run of [createAgentPod] makes its calls in this order:
    one lookup in the pod cache under the agent pod's key; then listings
    of visited namespaces, each at most once, in the order of the visit;
    then at most one creation request, which is in the workflow's
    namespace and for the pod built from discovery's output. *)
Theorem createAgentPod_call_order (rt : Runtime) (woc : wfOperationCtx) :
  ∃ listed creations,
    calls (createAgentPod rt woc)
    = CallStoreGet (agentPodKey woc) :: listingCalls listed ++ creations
    ∧ listed `prefix_of` visitedNamespaces rt woc
    ∧ (creations = []
       ∨ ∃ sidecars addresses,
           value (getAgentPlugins rt woc) = (sidecars, addresses, None)
           ∧ creations
             = [CallPodsCreate (metav1.Namespace (wfv1.wfMeta (wf woc)))
                  (newAgentPod woc (getAgentPodName woc) sidecars addresses)]).
Proof. apply createAgentPod_call_order_aux. Qed.

Lemma createAgentPod_submitted_in (rt : Runtime) (woc : wfOperationCtx)
    (ns : string) (pod : Pod) :
  CallPodsCreate ns pod ∈ calls (createAgentPod rt woc) →
  ns = metav1.Namespace (wfv1.wfMeta (wf woc))
  ∧ ∃ sidecars addresses,
      value (getAgentPlugins rt woc) = (sidecars, addresses, None)
      ∧ pod = newAgentPod woc (getAgentPodName woc) sidecars addresses.
Proof.
  destruct (createAgentPod_call_order_aux rt woc) as (listed & creations & -> & _ & Hc).
  intros Hin. apply elem_of_cons in Hin as [Heq|Hin]; [discriminate Heq|].
  apply elem_of_app in Hin as [Hin|Hin].
  - unfold listingCalls in Hin. apply list_elem_of_fmap in Hin as (ns' & Heq & _).
    discriminate Heq.
  - destruct Hc as [->|(sc & ad & Hok & ->)].
    + now apply elem_of_nil in Hin.
    + apply list_elem_of_singleton in Hin. injection Hin as -> ->.
      split; [reflexivity|]. now exists sc, ad.
Qed.

(** X9. With the plugin feature disabled, a cache miss leads to exactly
    two calls, the lookup and the creation request: the
    configuration-object lister is not called, and the pod submitted has
    the main container as its only container. *)
Theorem createAgentPod_without_plugins (rt : Runtime) (woc : wfOperationCtx) :
  plugins (controller woc) = false →
  cacheMisses woc = true →
  ∃ pod,
    calls (createAgentPod rt woc)
    = [CallStoreGet (agentPodKey woc);
       CallPodsCreate (metav1.Namespace (wfv1.wfMeta (wf woc))) pod]
    ∧ Containers (podSpec pod) = [mainContainer woc []].
Proof.
  intros Hoff Hmiss. rewrite (createAgentPod_on_miss rt woc Hmiss). cbn [calls snd].
  unfold createAgentPodOnMiss. rewrite calls_bind.
  rewrite getAgentPlugins_unfold, Hoff. cbn [mret M_ret value calls fst snd app].
  rewrite calls_bind. cbn [createPod calls value fst snd].
  exists (newAgentPod woc (getAgentPodName woc) [] []). split; [|reflexivity].
  destruct (podsCreate _ _ _) as [created|created err];
    [|destruct (apierr.IsAlreadyExists err)]; reflexivity.
Qed.

Lemma createAgentPod_without_plugins_witness :
  let woc := wocOf "prod" oneTask plainController in
  ∃ pod,
    calls (createAgentPod exampleRuntime woc)
    = [CallStoreGet (agentPodKey woc); CallPodsCreate "prod" pod]
    ∧ Containers (podSpec pod) = [mainContainer woc []].
Proof.
  intros woc.
  apply (createAgentPod_without_plugins exampleRuntime woc); reflexivity.
Defined.

(** X10. The pod of every creation request is the workflow's agent pod:
    [isAgentPod] recognises it, it lies in the workflow's namespace,
    which is the namespace the request goes to, the key looked up in the
    cache before is its namespace/name, and it carries no status. *)
Theorem createAgentPod_submits_agent_pod
    (rt : Runtime) (woc : wfOperationCtx) (ns : string) (pod : Pod) :
  CallPodsCreate ns pod ∈ calls (createAgentPod rt woc) →
  isAgentPod woc pod = true
  ∧ ns = metav1.Namespace (podMeta pod)
  ∧ metav1.Namespace (podMeta pod) = metav1.Namespace (wfv1.wfMeta (wf woc))
  ∧ head (calls (createAgentPod rt woc))
    = Some (CallStoreGet (metav1.Namespace (podMeta pod) +:+ "/"
                            +:+ metav1.Name (podMeta pod)))
  ∧ Phase (podStatus pod) = EmptyString.
Proof.
  intros Hin.
  destruct (createAgentPod_submitted_in rt woc ns pod Hin) as (-> & sc & ad & _ & ->).
  split; [now apply bool_decide_eq_true_2|].
  split; [reflexivity|]. split; [reflexivity|]. split; [|reflexivity].
  destruct (createAgentPod_call_order_aux rt woc) as (listed & creations & -> & _).
  reflexivity.
Qed.

(** X11. The pod of every creation request carries the workflow's name
    under the workflow label and "false" under the completion label; it
    carries the controller's instance id under the instance-id label
    exactly when that id is not empty; its only owner reference is a
    controller reference naming the workflow; its service account is
    the workflow's and its image pull secrets are those of the
    workflow's execution spec. *)
Theorem createAgentPod_submitted_metadata
    (rt : Runtime) (woc : wfOperationCtx) (ns : string) (pod : Pod) :
  CallPodsCreate ns pod ∈ calls (createAgentPod rt woc) →
  metav1.Labels (podMeta pod) !! common.LabelKeyWorkflow
    = Some (metav1.Name (wfv1.wfMeta (wf woc)))
  ∧ metav1.Labels (podMeta pod) !! common.LabelKeyCompleted = Some "false"
  ∧ metav1.Labels (podMeta pod) !! common.LabelKeyControllerInstanceID
    = (if bool_decide (InstanceID (controller woc) = EmptyString) then None
       else Some (InstanceID (controller woc)))
  ∧ (∃ owner, metav1.OwnerReferences (podMeta pod) = [owner]
              ∧ metav1.ownerName owner = metav1.Name (wfv1.wfMeta (wf woc))
              ∧ metav1.ownerUID owner = wfv1.wfUID (wf woc)
              ∧ metav1.ownerKind owner = workflow.WorkflowKind
              ∧ metav1.ownerController owner = true)
  ∧ ServiceAccountName (podSpec pod) = wfv1.specServiceAccountName (wfv1.wfSpec (wf woc))
  ∧ ImagePullSecrets (podSpec pod) = wfv1.specImagePullSecrets (wfv1.wfSpec (execWf woc)).
Proof.
  intros Hin.
  destruct (createAgentPod_submitted_in rt woc ns pod Hin) as (_ & sc & ad & _ & ->).
  unfold newAgentPod.
  cbn [podMeta podSpec metav1.Labels metav1.OwnerReferences ServiceAccountName
       ImagePullSecrets].
  assert (Hwc : common.LabelKeyWorkflow ≠ common.LabelKeyCompleted) by discriminate.
  assert (Hwi : common.LabelKeyWorkflow ≠ common.LabelKeyControllerInstanceID)
    by discriminate.
  assert (Hci : common.LabelKeyCompleted ≠ common.LabelKeyControllerInstanceID)
    by discriminate.
  repeat split.
  - case_bool_decide.
    + rewrite lookup_insert_ne by auto. rewrite lookup_insert_ne by auto.
      apply lookup_insert_eq.
    + rewrite lookup_insert_ne by auto. apply lookup_insert_eq.
  - case_bool_decide.
    + rewrite lookup_insert_ne by auto. apply lookup_insert_eq.
    + apply lookup_insert_eq.
  - destruct (decide (InstanceID (controller woc) = EmptyString)) as [Hid|Hid].
    + rewrite (bool_decide_eq_true_2 _ Hid).
      rewrite bool_decide_eq_false_2 by (intros Hne; now apply Hne).
      rewrite lookup_insert_ne by auto. rewrite lookup_insert_ne by auto.
      apply lookup_empty.
    + rewrite (bool_decide_eq_false_2 _ Hid), (bool_decide_eq_true_2 _ Hid).
      apply lookup_insert_eq.
  - eexists. split; [reflexivity|]. now repeat split.
  - destruct (decide (wfv1.specServiceAccountName (wfv1.wfSpec (wf woc)) = EmptyString))
      as [Hsa|Hsa].
    + rewrite bool_decide_eq_false_2 by (intros Hne; now apply Hne). now rewrite Hsa.
    + now rewrite (bool_decide_eq_true_2 _ Hsa).
Qed.

Lemma scenario_B_calls :
  let woc := wocOf "prod" oneTask (pluginController [slackPlugin] [mailPlugin]) in
  CallPodsCreate "prod"
    (newAgentPod woc "hello-1340600742-agent"
       [ apiv1.mkContainer "slack" "img1" ["sh"; "-c"] [] [];
         apiv1.mkContainer "mail" "img2" [] ["serve"] [] ]
       ["10.0.0.1:50051"; "10.0.0.2:50051"])
  ∈ calls (createAgentPod exampleRuntime woc).
Proof.
  intros woc.
  assert (Hcalls : calls (createAgentPod exampleRuntime woc)
                   = [CallStoreGet "prod/hello-1340600742-agent";
                      CallGetConfigMaps "argo" "AgentPlugin";
                      CallGetConfigMaps "prod" "AgentPlugin";
                      CallPodsCreate "prod"
                        (newAgentPod woc "hello-1340600742-agent"
                           [ apiv1.mkContainer "slack" "img1" ["sh"; "-c"] [] [];
                             apiv1.mkContainer "mail" "img2" [] ["serve"] [] ]
                           ["10.0.0.1:50051"; "10.0.0.2:50051"])]).
  { vm_compute. reflexivity. }
  rewrite Hcalls. do 3 apply list_elem_of_further. apply list_elem_of_here.
Defined.

Lemma createAgentPod_submits_agent_pod_witness :
  let woc := wocOf "prod" oneTask (pluginController [slackPlugin] [mailPlugin]) in
  let pod := newAgentPod woc "hello-1340600742-agent"
               [ apiv1.mkContainer "slack" "img1" ["sh"; "-c"] [] [];
                 apiv1.mkContainer "mail" "img2" [] ["serve"] [] ]
               ["10.0.0.1:50051"; "10.0.0.2:50051"] in
  isAgentPod woc pod = true
  ∧ "prod" = metav1.Namespace (podMeta pod)
  ∧ metav1.Namespace (podMeta pod) = metav1.Namespace (wfv1.wfMeta (wf woc))
  ∧ head (calls (createAgentPod exampleRuntime woc))
    = Some (CallStoreGet (metav1.Namespace (podMeta pod) +:+ "/"
                            +:+ metav1.Name (podMeta pod)))
  ∧ Phase (podStatus pod) = EmptyString.
Proof.
  intros woc pod.
  exact (createAgentPod_submits_agent_pod exampleRuntime woc "prod" pod scenario_B_calls).
Defined.

Lemma createAgentPod_submitted_metadata_witness :
  let woc := wocOf "prod" oneTask (pluginController [slackPlugin] [mailPlugin]) in
  let pod := newAgentPod woc "hello-1340600742-agent"
               [ apiv1.mkContainer "slack" "img1" ["sh"; "-c"] [] [];
                 apiv1.mkContainer "mail" "img2" [] ["serve"] [] ]
               ["10.0.0.1:50051"; "10.0.0.2:50051"] in
  metav1.Labels (podMeta pod) !! common.LabelKeyWorkflow = Some "hello"
  ∧ metav1.Labels (podMeta pod) !! common.LabelKeyCompleted = Some "false"
  ∧ metav1.Labels (podMeta pod) !! common.LabelKeyControllerInstanceID = Some "blue"
  ∧ (∃ owner, metav1.OwnerReferences (podMeta pod) = [owner]
              ∧ metav1.ownerName owner = "hello"
              ∧ metav1.ownerUID owner = "0f6b"
              ∧ metav1.ownerKind owner = workflow.WorkflowKind
              ∧ metav1.ownerController owner = true)
  ∧ ServiceAccountName (podSpec pod) = EmptyString
  ∧ ImagePullSecrets (podSpec pod) = [].
Proof.
  intros woc pod.
  exact (createAgentPod_submitted_metadata exampleRuntime woc "prod" pod scenario_B_calls).
Defined.

(** ** More on the reconcile pass *)

Lemma updateAgentPodStatus_calls (woc : wfOperationCtx) (pod : Pod) :
  calls (updateAgentPodStatus woc pod)
  = if bool_decide (healthyPhase (Phase (podStatus pod))) then []
    else [CallMarkWorkflowError (ErrAgentPodFailed (assessAgentPodStatus pod).2)].
Proof.
  unfold updateAgentPodStatus. case_bool_decide as Hhealthy.
  - now rewrite (assess_no_transition pod Hhealthy).
  - unfold healthyPhase in Hhealthy.
    destruct (decide (Phase (podStatus pod) = apiv1.PodFailed)) as [Hfailed|Hother].
    + now rewrite (assess_failed pod Hfailed).
    + rewrite assess_unexpected; [reflexivity|..]; try assumption;
        intros Heq; apply Hhealthy; auto.
Qed.

Lemma updateAgentPodStatus_marks (woc : wfOperationCtx) (pod : Pod) :
  markWorkflowErrorCalls (calls (updateAgentPodStatus woc pod))
  = if bool_decide (healthyPhase (Phase (podStatus pod))) then 0 else 1.
Proof.
  rewrite updateAgentPodStatus_calls. now case_bool_decide.
Qed.

(** X12. No pass calls the workflow error setter more than once. *)
Theorem reconcileAgentPod_marks_at_most_once (rt : Runtime) (woc : wfOperationCtx) :
  (markWorkflowErrorCalls (calls (reconcileAgentPod rt woc)) ≤ 1)%nat.
Proof.
  unfold reconcileAgentPod. case_bool_decide as Htasks; [cbn; lia|].
  rewrite calls_bind, markWorkflowErrorCalls_app, createAgentPod_no_mark.
  destruct (value (createAgentPod rt woc)) as [pod [err|]]; [cbn; lia|].
  destruct pod as [pod|]; [|cbn; lia].
  case_bool_decide as Hphase; [|cbn; lia].
  rewrite calls_bind, markWorkflowErrorCalls_app, updateAgentPodStatus_marks.
  cbn [mret M_ret calls value fst snd]. case_bool_decide; cbn; lia.
Qed.

(** X13. When [createAgentPod] returns an error, the pass returns that
    same error, makes no call beyond those of [createAgentPod], and does
    not call the workflow error setter. *)
Theorem reconcileAgentPod_returns_creation_error
    (rt : Runtime) (woc : wfOperationCtx) (pod : option Pod) (err : error) :
  size (taskSet woc) ≠ 0 →
  value (createAgentPod rt woc) = (pod, Some err) →
  reconcileAgentPod rt woc = (Return (Some err), calls (createAgentPod rt woc))
  ∧ markWorkflowErrorCalls (calls (reconcileAgentPod rt woc)) = 0.
Proof.
  intros Htasks Hfail.
  assert (Hrun : reconcileAgentPod rt woc
                 = (Return (Some err), calls (createAgentPod rt woc))).
  { unfold reconcileAgentPod. rewrite bool_decide_eq_false_2 by assumption.
    rewrite (M_eta (_ ≫= _)), value_bind, calls_bind, Hfail.
    cbn [mret M_ret value calls fst snd]. now rewrite app_nil_r. }
  rewrite Hrun. split; [reflexivity|]. apply createAgentPod_no_mark.
Qed.

Lemma reconcileAgentPod_returns_creation_error_witness :
  let woc := wocOf "prod" oneTask forbiddingController in
  let err := ErrCreateAgentPod (ErrCollaborator "Forbidden" "pods is forbidden") in
  reconcileAgentPod exampleRuntime woc
  = (Return (Some err), calls (createAgentPod exampleRuntime woc))
  ∧ markWorkflowErrorCalls (calls (reconcileAgentPod exampleRuntime woc)) = 0.
Proof.
  intros woc err.
  apply (reconcileAgentPod_returns_creation_error exampleRuntime woc None err).
  - vm_compute. discriminate.
  - vm_compute. reflexivity.
Defined.

(** X14. Once [createAgentPod] has returned a pod, the pass calls the
    workflow error setter exactly when the pod's phase is neither empty
    nor one of Succeeded, Running and Pending; it does so whether the
    pod came from the cache or from the creation request. *)
Theorem reconcileAgentPod_marks_iff_unhealthy
    (rt : Runtime) (woc : wfOperationCtx) (pod : Pod) :
  size (taskSet woc) ≠ 0 →
  value (createAgentPod rt woc) = (Some pod, None) →
  (markWorkflowErrorCalls (calls (reconcileAgentPod rt woc)) = 1
   ↔ Phase (podStatus pod) ≠ EmptyString ∧ ¬ healthyPhase (Phase (podStatus pod)))
  ∧ (markWorkflowErrorCalls (calls (reconcileAgentPod rt woc)) = 0
     ↔ Phase (podStatus pod) = EmptyString ∨ healthyPhase (Phase (podStatus pod))).
Proof.
  intros Htasks Hpod.
  rewrite (reconcileAgentPod_with_pod rt woc pod Htasks Hpod). cbn [calls snd].
  rewrite markWorkflowErrorCalls_app, createAgentPod_no_mark.
  destruct (decide (Phase (podStatus pod) = EmptyString)) as [Hempty|Hsettled].
  - rewrite bool_decide_eq_false_2 by (intros Hne; now apply Hne).
    change (markWorkflowErrorCalls []) with 0. cbn [Nat.add].
    split; split; intros H; try discriminate; tauto.
  - rewrite (bool_decide_eq_true_2 _ Hsettled), updateAgentPodStatus_marks.
    destruct (decide (healthyPhase (Phase (podStatus pod)))) as [Hhealthy|Hsick].
    + rewrite (bool_decide_eq_true_2 _ Hhealthy). cbn [Nat.add].
      split; split; intros H; try discriminate; tauto.
    + rewrite (bool_decide_eq_false_2 _ Hsick). cbn [Nat.add].
      split; split; intros H; try discriminate; tauto.
Qed.

Lemma reconcileAgentPod_marks_iff_unhealthy_witness :
  let woc := wocOf "prod" oneTask crashingClusterController in
  let pod := {| podMeta := podMeta (newAgentPod woc (getAgentPodName woc) [] []);
                podSpec := podSpec (newAgentPod woc (getAgentPodName woc) [] []);
                podStatus := {| Phase := apiv1.PodFailed;
                                Message := "ImagePullBackOff" |} |} in
  (markWorkflowErrorCalls (calls (reconcileAgentPod exampleRuntime woc)) = 1
   ↔ Phase (podStatus pod) ≠ EmptyString ∧ ¬ healthyPhase (Phase (podStatus pod)))
  ∧ (markWorkflowErrorCalls (calls (reconcileAgentPod exampleRuntime woc)) = 0
     ↔ Phase (podStatus pod) = EmptyString ∨ healthyPhase (Phase (podStatus pod))).
Proof.
  intros woc pod.
  apply (reconcileAgentPod_marks_iff_unhealthy exampleRuntime woc pod).
  - vm_compute. discriminate.
  - vm_compute. reflexivity.
Defined.

Example reconcileAgentPod_marks_created_failed_pod :
  calls (reconcileAgentPod exampleRuntime (wocOf "prod" oneTask crashingClusterController))
  = [CallStoreGet "prod/hello-1340600742-agent";
     CallPodsCreate "prod"
       (newAgentPod (wocOf "prod" oneTask crashingClusterController)
          "hello-1340600742-agent" [] []);
     CallMarkWorkflowError (ErrAgentPodFailed "ImagePullBackOff")].
Proof. vm_compute. reflexivity. Qed.

(** With a nil error, what [createAgentPod] returns past the lookup is
    a pod, unless the creation call failed with "already exists" and
    handed back nil. *)
Lemma createAgentPodOnMiss_pod (rt : Runtime) (woc : wfOperationCtx)
    (podName : string) (result : option Pod) :
  (∀ ns pod err,
     podsCreate (controller woc) ns pod = CreateFailed None err →
     apierr.IsAlreadyExists err = false) →
  value (createAgentPodOnMiss rt woc podName) = (result, None) →
  ∃ pod, result = Some pod.
Proof.
  intros Hclient. unfold createAgentPodOnMiss. rewrite value_bind.
  destruct (value (getAgentPlugins rt woc)) as [[sc ad] [err|]]; [discriminate|].
  rewrite value_bind. cbn [createPod value fst].
  destruct (podsCreate _ _ _) as [created|created err] eqn:Hcreate.
  - intros [= <-]. now exists created.
  - destruct (apierr.IsAlreadyExists err) eqn:Hexists; [|discriminate].
    intros [= <-]. destruct created as [created|]; [now exists created|].
    apply Hclient in Hcreate. congruence.
Qed.

(** X15. If the creation client never hands back a nil pod together
    with an "already exists" error, then [createAgentPod] never returns
    a nil pod with a nil error, and [reconcileAgentPod] does not
    panic. *)
Theorem reconcileAgentPod_does_not_panic (rt : Runtime) (woc : wfOperationCtx) :
  (∀ ns pod err,
     podsCreate (controller woc) ns pod = CreateFailed None err →
     apierr.IsAlreadyExists err = false) →
  (∀ result, value (createAgentPod rt woc) = (result, None) → ∃ pod, result = Some pod)
  ∧ value (reconcileAgentPod rt woc) ≠ Panic.
Proof.
  intros Hclient.
  assert (Hpod : ∀ result, value (createAgentPod rt woc) = (result, None) →
                           ∃ pod, result = Some pod).
  { intros result. destruct (cacheMisses woc) eqn:Hmiss.
    - rewrite (createAgentPod_on_miss rt woc Hmiss). cbn [value fst].
      now apply createAgentPodOnMiss_pod.
    - unfold cacheMisses in Hmiss. unfold createAgentPod. rewrite value_bind.
      cbn [storeGet value fst]. fold (agentPodKey woc).
      destruct (podStoreGet _ _) as [[[[existing|]|] [|]] [err|]];
        try discriminate Hmiss; cbn [mret M_ret value fst]; try discriminate.
      intros [= <-]. now exists existing. }
  split; [exact Hpod|].
  unfold reconcileAgentPod. case_bool_decide as Htasks; [discriminate|].
  rewrite value_bind.
  destruct (value (createAgentPod rt woc)) as [result [err|]] eqn:Hvalue;
    [discriminate|].
  destruct (Hpod result eq_refl) as [pod ->].
  case_bool_decide; [rewrite value_bind|]; discriminate.
Qed.

Lemma reconcileAgentPod_does_not_panic_witness :
  let woc := wocOf "prod" oneTask plainController in
  (∀ result, value (createAgentPod exampleRuntime woc) = (result, None) →
             ∃ pod, result = Some pod)
  ∧ value (reconcileAgentPod exampleRuntime woc) ≠ Panic.
Proof.
  intros woc. apply (reconcileAgentPod_does_not_panic exampleRuntime woc).
  intros ns pod err Hcreate. discriminate Hcreate.
Defined.

(** ** The TLS configuration read from a secret *)

Section ServerTLSConfig.

Context (lib : tlsutil.Libs) (name : string) (tlsMinVersion : Z) (ns : string).

(** The four ways a run of [GetServerTLSConfigFromSecret] can go, with
    its result and its reads in each. *)
Lemma GetServerTLSConfigFromSecret_cases :
  let run := tlsutil.GetServerTLSConfigFromSecret lib name tlsMinVersion ns in
  (∃ err, tlsutil.getSecrets lib ns name tlsutil.tlsCrtSecretKey = tlsutil.Failed err
          ∧ run = (tlsutil.Failed err, take 1 (secretReads ns name)))
  ∨ (∃ certpem err,
       tlsutil.getSecrets lib ns name tlsutil.tlsCrtSecretKey = tlsutil.Done certpem
       ∧ tlsutil.getSecrets lib ns name tlsutil.tlsKeySecretKey = tlsutil.Failed err
       ∧ run = (tlsutil.Failed err, take 2 (secretReads ns name)))
  ∨ (∃ certpem keypem err,
       tlsutil.getSecrets lib ns name tlsutil.tlsCrtSecretKey = tlsutil.Done certpem
       ∧ tlsutil.getSecrets lib ns name tlsutil.tlsKeySecretKey = tlsutil.Done keypem
       ∧ tlsutil.x509KeyPair lib certpem keypem = tlsutil.Failed err
       ∧ run = (tlsutil.Failed err, take 2 (secretReads ns name)))
  ∨ (∃ certpem keypem cert,
       tlsutil.getSecrets lib ns name tlsutil.tlsCrtSecretKey = tlsutil.Done certpem
       ∧ tlsutil.getSecrets lib ns name tlsutil.tlsKeySecretKey = tlsutil.Done keypem
       ∧ tlsutil.x509KeyPair lib certpem keypem = tlsutil.Done cert
       ∧ run
         = (tlsutil.Done
              {| tlsutil.RootCAs :=
                   Some match tlsutil.getSecrets lib ns name tlsutil.tlsCaSecretKey with
                        | tlsutil.Done capem =>
                            (tlsutil.appendCertsFromPEM lib (basePool lib) capem).1
                        | tlsutil.Failed _ => basePool lib
                        end;
                 tlsutil.Certificates := [cert];
                 tlsutil.MinVersion := tlsMinVersion;
                 tlsutil.InsecureSkipVerify := false |},
            secretReads ns name)).
Proof.
  intros run. subst run.
  unfold tlsutil.GetServerTLSConfigFromSecret, tlsutil.GetSecrets, basePool.
  unfold mbind, tlsutil.T_bind, mret, tlsutil.T_ret.
  destruct (tlsutil.getSecrets lib ns name tlsutil.tlsCrtSecretKey) as [certpem|err].
  2: { left. now exists err. }
  destruct (tlsutil.getSecrets lib ns name tlsutil.tlsKeySecretKey) as [keypem|err].
  2: { right; left. now exists certpem, err. }
  destruct (tlsutil.x509KeyPair lib certpem keypem) as [cert|err] eqn:Hpair.
  2: { right; right; left. now exists certpem, keypem, err. }
  right; right; right. exists certpem, keypem, cert.
  split; [reflexivity|]. split; [reflexivity|]. split; [exact Hpair|].
  now destruct (tlsutil.getSecrets lib ns name tlsutil.tlsCaSecretKey).
Qed.

(** X16. [GetServerTLSConfigFromSecret] reads "tls.crt", then "tls.key",
    then "ca.crt", all from the named secret in the given namespace, and
    stops at the first failure: its reads are the first one, two or
    three of these; it stops after the first exactly when "tls.crt"
    cannot be read, and it reads "ca.crt" exactly when it succeeds. *)
Theorem GetServerTLSConfigFromSecret_reads :
  let run := tlsutil.GetServerTLSConfigFromSecret lib name tlsMinVersion ns in
  ∃ n, run.2 = take n (secretReads ns name)
       ∧ (n = 1 ∨ n = 2 ∨ n = 3)
       ∧ (n = 1 ↔ ∃ err, tlsutil.getSecrets lib ns name tlsutil.tlsCrtSecretKey
                          = tlsutil.Failed err)
       ∧ (n = 3 ↔ ∃ config, run.1 = tlsutil.Done config).
Proof.
  intros run. subst run.
  destruct GetServerTLSConfigFromSecret_cases
    as [(err & Hcrt & ->)
       |[(certpem & err & Hcrt & Hkey & ->)
        |[(certpem & keypem & err & Hcrt & Hkey & Hpair & ->)
         |(certpem & keypem & cert & Hcrt & Hkey & Hpair & ->)]]]; cbn [fst snd].
  - exists 1. split; [reflexivity|]. split; [now left|]. split.
    + split; [intros _; now exists err|reflexivity].
    + split; [discriminate|intros [config Hc]; discriminate Hc].
  - exists 2. split; [reflexivity|]. split; [right; now left|]. split.
    + split; [discriminate|]. intros [e He]. congruence.
    + split; [discriminate|intros [config Hc]; discriminate Hc].
  - exists 2. split; [reflexivity|]. split; [right; now left|]. split.
    + split; [discriminate|]. intros [e He]. congruence.
    + split; [discriminate|intros [config Hc]; discriminate Hc].
  - exists 3. split; [reflexivity|]. split; [right; now right|]. split.
    + split; [discriminate|]. intros [e He]. congruence.
    + split; [intros _; eauto|reflexivity].
Qed.

(** X17. [GetServerTLSConfigFromSecret] succeeds exactly when "tls.crt"
    and "tls.key" can be read and form a key pair; neither a missing
    system pool, nor an unreadable "ca.crt", nor a "ca.crt" that cannot
    be appended makes it fail.  When it fails, its error is the error of
    the failing read or of the key-pair parsing, as it is. *)
Theorem GetServerTLSConfigFromSecret_succeeds_iff :
  let run := tlsutil.GetServerTLSConfigFromSecret lib name tlsMinVersion ns in
  ((∃ config, run.1 = tlsutil.Done config)
   ↔ ∃ certpem keypem cert,
       tlsutil.getSecrets lib ns name tlsutil.tlsCrtSecretKey = tlsutil.Done certpem
       ∧ tlsutil.getSecrets lib ns name tlsutil.tlsKeySecretKey = tlsutil.Done keypem
       ∧ tlsutil.x509KeyPair lib certpem keypem = tlsutil.Done cert)
  ∧ (∀ err, run.1 = tlsutil.Failed err →
       tlsutil.getSecrets lib ns name tlsutil.tlsCrtSecretKey = tlsutil.Failed err
       ∨ tlsutil.getSecrets lib ns name tlsutil.tlsKeySecretKey = tlsutil.Failed err
       ∨ ∃ certpem keypem,
           tlsutil.getSecrets lib ns name tlsutil.tlsCrtSecretKey = tlsutil.Done certpem
           ∧ tlsutil.getSecrets lib ns name tlsutil.tlsKeySecretKey = tlsutil.Done keypem
           ∧ tlsutil.x509KeyPair lib certpem keypem = tlsutil.Failed err).
Proof.
  intros run. subst run.
  destruct GetServerTLSConfigFromSecret_cases
    as [(err & Hcrt & ->)
       |[(certpem & err & Hcrt & Hkey & ->)
        |[(certpem & keypem & err & Hcrt & Hkey & Hpair & ->)
         |(certpem & keypem & cert & Hcrt & Hkey & Hpair & ->)]]]; cbn [fst snd].
  - split.
    + split; [intros [config Hc]; discriminate Hc|].
      intros (c & k & cert & Hc & _). congruence.
    + intros e [= <-]. now left.
  - split.
    + split; [intros [config Hc]; discriminate Hc|].
      intros (c & k & cert & _ & Hk & _). congruence.
    + intros e [= <-]. right. now left.
  - split.
    + split; [intros [config Hc]; discriminate Hc|].
      intros (c & k & cert & Hc & Hk & Hp). congruence.
    + intros e [= <-]. right. right. now exists certpem, keypem.
  - split.
    + split; [intros _; now exists certpem, keypem, cert|intros _; eauto].
    + intros e He. discriminate He.
Qed.

(** X18. When it succeeds, [GetServerTLSConfigFromSecret] returns a
    configuration with the parsed key pair as its only certificate, the
    given minimum version, certificate verification left on, and as
    trusted roots the system pool, or an empty new pool when the system
    pool cannot be had, to which the certificates of "ca.crt" are
    appended when that key can be read. *)
Theorem GetServerTLSConfigFromSecret_config
    (certpem keypem : list Byte.byte) (cert : tlsutil.TLSCertificate lib) :
  tlsutil.getSecrets lib ns name tlsutil.tlsCrtSecretKey = tlsutil.Done certpem →
  tlsutil.getSecrets lib ns name tlsutil.tlsKeySecretKey = tlsutil.Done keypem →
  tlsutil.x509KeyPair lib certpem keypem = tlsutil.Done cert →
  ∃ config,
    (tlsutil.GetServerTLSConfigFromSecret lib name tlsMinVersion ns).1
      = tlsutil.Done config
    ∧ tlsutil.Certificates config = [cert]
    ∧ tlsutil.MinVersion config = tlsMinVersion
    ∧ tlsutil.InsecureSkipVerify config = false
    ∧ (∀ capem,
         tlsutil.getSecrets lib ns name tlsutil.tlsCaSecretKey = tlsutil.Done capem →
         tlsutil.RootCAs config
         = Some (tlsutil.appendCertsFromPEM lib (basePool lib) capem).1)
    ∧ (∀ err,
         tlsutil.getSecrets lib ns name tlsutil.tlsCaSecretKey = tlsutil.Failed err →
         tlsutil.RootCAs config = Some (basePool lib))
    ∧ (∀ err,
         tlsutil.systemCertPool lib = tlsutil.Failed err →
         basePool lib = tlsutil.newCertPool lib).
Proof.
  intros Hcrt Hkey Hpair.
  destruct GetServerTLSConfigFromSecret_cases
    as [(err & Hcrt' & _)
       |[(c & err & _ & Hkey' & _)
        |[(c & k & err & Hcrt' & Hkey' & Hpair' & _)
         |(c & k & cert' & Hcrt' & Hkey' & Hpair' & ->)]]]; try congruence.
  assert (c = certpem) as -> by congruence.
  assert (k = keypem) as -> by congruence.
  assert (cert' = cert) as -> by congruence.
  eexists. split; [reflexivity|]. cbn [tlsutil.Certificates tlsutil.MinVersion
    tlsutil.InsecureSkipVerify tlsutil.RootCAs].
  repeat split.
  - intros capem ->. reflexivity.
  - intros err ->. reflexivity.
  - intros err Hpool. unfold basePool. now rewrite Hpool.
Qed.

End ServerTLSConfig.

Lemma GetServerTLSConfigFromSecret_config_witness :
  let lib := exampleLibs serverSecret (λ _, tlsutil.Done [Byte.x07]) in
  ∃ config,
    (tlsutil.GetServerTLSConfigFromSecret lib "argo-server-tls" 771 "argo").1
      = tlsutil.Done config
    ∧ tlsutil.Certificates config = [([Byte.x01], [Byte.x02])]
    ∧ tlsutil.MinVersion config = 771%Z
    ∧ tlsutil.InsecureSkipVerify config = false
    ∧ (∀ capem,
         tlsutil.getSecrets lib "argo" "argo-server-tls" tlsutil.tlsCaSecretKey
           = tlsutil.Done capem →
         tlsutil.RootCAs config
         = Some (tlsutil.appendCertsFromPEM lib (basePool lib) capem).1)
    ∧ (∀ err,
         tlsutil.getSecrets lib "argo" "argo-server-tls" tlsutil.tlsCaSecretKey
           = tlsutil.Failed err →
         tlsutil.RootCAs config = Some (basePool lib))
    ∧ (∀ err,
         tlsutil.systemCertPool lib = tlsutil.Failed err →
         basePool lib = tlsutil.newCertPool lib).
Proof.
  intros lib.
  apply (GetServerTLSConfigFromSecret_config lib "argo-server-tls" 771 "argo"
           [Byte.x01] [Byte.x02] ([Byte.x01], [Byte.x02])); reflexivity.
Defined.

Example GetServerTLSConfigFromSecret_without_ca :
  let lib := exampleLibs serverSecret (λ _, tlsutil.Done [Byte.x07]) in
  tlsutil.GetServerTLSConfigFromSecret lib "argo-server-tls" 771 "argo"
  = (tlsutil.Done (@tlsutil.mkConfig lib (Some []) [([Byte.x01], [Byte.x02])] 771 false),
     secretReads "argo" "argo-server-tls").
Proof. vm_compute. reflexivity. Qed.

(** ** The generated certificate and key *)

Section GeneratedKeyPair.

Context (lib : tlsutil.Libs) (createCertificate : tlsutil.CreateCertificate lib).

Lemma parsed_or_named (hosts : list string) :
  length (omap (tlsutil.parseIP lib) hosts)
  + length (filter (λ h, tlsutil.parseIP lib h = None) hosts)
  = length hosts.
Proof.
  induction hosts as [|h rest IH]; [reflexivity|].
  rewrite filter_cons. cbn [omap list_omap].
  destruct (tlsutil.parseIP lib h) as [ip|].
  - rewrite decide_False by discriminate. cbn [length]. lia.
  - rewrite decide_True by reflexivity. cbn [length]. lia.
Qed.

Lemma addHosts_fields (hosts : list string) (template : tlsutil.Certificate lib) :
  tlsutil.IPAddresses (tlsutil.addHosts lib hosts template)
    = tlsutil.IPAddresses template ++ omap (tlsutil.parseIP lib) hosts
  ∧ tlsutil.DNSNames (tlsutil.addHosts lib hosts template)
    = tlsutil.DNSNames template
      ++ filter (λ h, tlsutil.parseIP lib h = None) hosts
  ∧ tlsutil.SerialNumber (tlsutil.addHosts lib hosts template)
    = tlsutil.SerialNumber template
  ∧ tlsutil.Organization (tlsutil.addHosts lib hosts template)
    = tlsutil.Organization template
  ∧ tlsutil.NotBefore (tlsutil.addHosts lib hosts template)
    = tlsutil.NotBefore template
  ∧ tlsutil.NotAfter (tlsutil.addHosts lib hosts template)
    = tlsutil.NotAfter template
  ∧ tlsutil.KeyUsage (tlsutil.addHosts lib hosts template)
    = tlsutil.KeyUsage template
  ∧ tlsutil.ExtKeyUsages (tlsutil.addHosts lib hosts template)
    = tlsutil.ExtKeyUsages template
  ∧ tlsutil.BasicConstraintsValid (tlsutil.addHosts lib hosts template)
    = tlsutil.BasicConstraintsValid template.
Proof.
  revert template. induction hosts as [|h rest IH]; intros template.
  - cbn [tlsutil.addHosts omap filter]. rewrite !app_nil_r. now repeat split.
  - cbn [tlsutil.addHosts]. rewrite filter_cons. cbn [omap list_omap].
    destruct (tlsutil.parseIP lib h) as [ip|] eqn:Hparse.
    + match goal with
      | |- context [tlsutil.addHosts lib rest ?t] =>
          destruct (IH t) as (Hip & Hdns & Hs & Ho & Hb & Ha & Hk & He & Hc)
      end.
      rewrite Hip, Hdns, Hs, Ho, Hb, Ha, Hk, He, Hc.
      cbn [tlsutil.IPAddresses tlsutil.DNSNames tlsutil.SerialNumber
           tlsutil.Organization tlsutil.NotBefore tlsutil.NotAfter tlsutil.KeyUsage
           tlsutil.ExtKeyUsages tlsutil.BasicConstraintsValid].
      rewrite decide_False by discriminate.
      rewrite <- !app_assoc. now repeat split.
    + match goal with
      | |- context [tlsutil.addHosts lib rest ?t] =>
          destruct (IH t) as (Hip & Hdns & Hs & Ho & Hb & Ha & Hk & He & Hc)
      end.
      rewrite Hip, Hdns, Hs, Ho, Hb, Ha, Hk, He, Hc.
      cbn [tlsutil.IPAddresses tlsutil.DNSNames tlsutil.SerialNumber
           tlsutil.Organization tlsutil.NotBefore tlsutil.NotAfter tlsutil.KeyUsage
           tlsutil.ExtKeyUsages tlsutil.BasicConstraintsValid].
      rewrite decide_True by reflexivity.
      rewrite <- !app_assoc. now repeat split.
Qed.

(** X19. The loop over the hosts records every host exactly once and in
    order: as an IP address when it parses as one, as a DNS name
    otherwise; it changes no other field of the template. *)
Theorem addHosts_partitions (hosts : list string) (template : tlsutil.Certificate lib) :
  let result := tlsutil.addHosts lib hosts template in
  tlsutil.IPAddresses result
    = tlsutil.IPAddresses template ++ omap (tlsutil.parseIP lib) hosts
  ∧ tlsutil.DNSNames result
    = tlsutil.DNSNames template
      ++ filter (λ h, tlsutil.parseIP lib h = None) hosts
  ∧ length (tlsutil.IPAddresses result) + length (tlsutil.DNSNames result)
    = length (tlsutil.IPAddresses template) + length (tlsutil.DNSNames template)
      + length hosts
  ∧ tlsutil.SerialNumber result = tlsutil.SerialNumber template
  ∧ tlsutil.Organization result = tlsutil.Organization template
  ∧ tlsutil.NotBefore result = tlsutil.NotBefore template
  ∧ tlsutil.NotAfter result = tlsutil.NotAfter template
  ∧ tlsutil.KeyUsage result = tlsutil.KeyUsage template
  ∧ tlsutil.ExtKeyUsages result = tlsutil.ExtKeyUsages template
  ∧ tlsutil.BasicConstraintsValid result = tlsutil.BasicConstraintsValid template.
Proof.
  cbv zeta.
  destruct (addHosts_fields hosts template)
    as (Hip & Hdns & Hs & Ho & Hb & Ha & Hk & He & Hc).
  split; [exact Hip|]. split; [exact Hdns|]. split; [|now repeat split].
  rewrite Hip, Hdns, !length_app.
  pose proof (parsed_or_named hosts). lia.
Qed.

(** What a successful [generate] went through. *)
Lemma generate_done (certBytes : list Byte.byte) (key : tlsutil.PrivateKey lib) :
  tlsutil.generate lib createCertificate = tlsutil.Done (certBytes, key) →
  ∃ k serialNumber,
    key = tlsutil.ECDSAKey k
    ∧ tlsutil.ecdsaGenerateKey lib = tlsutil.Done k
    ∧ tlsutil.randInt lib (2 ^ 128) = tlsutil.Done serialNumber
    ∧ createCertificate (generatedTemplate lib serialNumber)
        (generatedTemplate lib serialNumber) (tlsutil.publicKey lib k) k
      = tlsutil.Done certBytes.
Proof.
  unfold tlsutil.generate, generatedTemplate.
  change (Z.shiftl 1 128) with (2 ^ 128)%Z.
  destruct (tlsutil.ecdsaGenerateKey lib) as [k|err]; [|discriminate].
  destruct (tlsutil.randInt lib (2 ^ 128)) as [serialNumber|err]; [|discriminate].
  destruct (createCertificate _ _ _ _) as [bytes|err] eqn:Hcreate; [|discriminate].
  intros [= <- <-]. now exists k, serialNumber.
Qed.

(** X20. A certificate that [generate] returns is self-signed: it was
    created from one template used both as the certificate and as its
    parent, for the public half of the very key that signs it and that
    is returned with it, an ECDSA key.  The template carries the serial
    number drawn below 2^128, is valid from the time of the call for
    365 days, allows key encipherment and digital signature for server
    authentication, and names the single host "localhost", as an IP
    address if that parses as one and as a DNS name otherwise. *)
Theorem generate_self_signed (certBytes : list Byte.byte) (key : tlsutil.PrivateKey lib) :
  tlsutil.generate lib createCertificate = tlsutil.Done (certBytes, key) →
  ∃ k serialNumber template,
    key = tlsutil.ECDSAKey k
    ∧ tlsutil.ecdsaGenerateKey lib = tlsutil.Done k
    ∧ tlsutil.randInt lib (2 ^ 128) = tlsutil.Done serialNumber
    ∧ createCertificate template template (tlsutil.publicKey lib k) k
      = tlsutil.Done certBytes
    ∧ tlsutil.SerialNumber template = serialNumber
    ∧ tlsutil.NotBefore template = tlsutil.timeNow lib
    ∧ tlsutil.NotAfter template
      = tlsutil.timeAdd lib (tlsutil.timeNow lib) 31536000000000000
    ∧ tlsutil.KeyUsage template = 5%Z
    ∧ tlsutil.ExtKeyUsages template = [tlsutil.ExtKeyUsageServerAuth]
    ∧ tlsutil.BasicConstraintsValid template = true
    ∧ match tlsutil.parseIP lib "localhost" with
      | Some ip => tlsutil.IPAddresses template = [ip] ∧ tlsutil.DNSNames template = []
      | None => tlsutil.IPAddresses template = []
                ∧ tlsutil.DNSNames template = ["localhost"]
      end.
Proof.
  intros Hgen.
  destruct (generate_done certBytes key Hgen) as (k & serialNumber & -> & Hk & Hs & Hc).
  exists k, serialNumber, (generatedTemplate lib serialNumber).
  split; [reflexivity|]. split; [exact Hk|]. split; [exact Hs|]. split; [exact Hc|].
  unfold generatedTemplate.
  destruct (addHosts_fields ["localhost"]
              (tlsutil.newTemplate lib serialNumber (tlsutil.timeNow lib)
                 (tlsutil.timeAdd lib (tlsutil.timeNow lib) (365 * 24 * tlsutil.Hour))))
    as (Hip & Hdns & Hsn & _ & Hnb & Hna & Hku & Heku & Hbc).
  rewrite Hip, Hdns, Hsn, Hnb, Hna, Hku, Heku, Hbc.
  repeat (split; [reflexivity|]).
  rewrite filter_cons. cbn [omap list_omap tlsutil.newTemplate tlsutil.IPAddresses
    tlsutil.DNSNames app filter].
  destruct (tlsutil.parseIP lib "localhost") as [ip|].
  - rewrite decide_False by discriminate. now split.
  - rewrite decide_True by reflexivity. now split.
Qed.

(** X21. [GenerateX509KeyPairTLSConfig] ends in one of three ways.  It
    exits the process with code 2, when a certificate was generated but
    its key cannot be marshalled.  It returns an error: that of
    [generate], or that of the parsing of the generated pair.  Or it
    returns a configuration whose only certificate is the pair parsed
    from the PEM encodings of a CERTIFICATE block with the generated
    certificate and of an EC PRIVATE KEY block with the marshalled key,
    with the given minimum version, no root pool, and certificate
    verification switched off.  A nil block is never encoded. *)
Theorem GenerateX509KeyPairTLSConfig_outcomes (tlsMinVersion : Z) :
  match tlsutil.GenerateX509KeyPairTLSConfig lib createCertificate tlsMinVersion with
  | tlsutil.Exits code =>
      code = 2%Z
      ∧ ∃ certBytes k err,
          tlsutil.generate lib createCertificate
            = tlsutil.Done (certBytes, tlsutil.ECDSAKey k)
          ∧ tlsutil.marshalECPrivateKey lib k = tlsutil.Failed err
  | tlsutil.Returns (tlsutil.Failed err) =>
      tlsutil.generate lib createCertificate = tlsutil.Failed err
      ∨ ∃ certBytes k keyBytes,
          tlsutil.generate lib createCertificate
            = tlsutil.Done (certBytes, tlsutil.ECDSAKey k)
          ∧ tlsutil.marshalECPrivateKey lib k = tlsutil.Done keyBytes
          ∧ tlsutil.x509KeyPair lib
              (tlsutil.pemEncodeToMemory lib
                 (Some (tlsutil.mkBlock "CERTIFICATE" certBytes)))
              (tlsutil.pemEncodeToMemory lib
                 (Some (tlsutil.mkBlock "EC PRIVATE KEY" keyBytes)))
            = tlsutil.Failed err
  | tlsutil.Returns (tlsutil.Done config) =>
      ∃ certBytes k keyBytes cert,
        tlsutil.generate lib createCertificate
          = tlsutil.Done (certBytes, tlsutil.ECDSAKey k)
        ∧ tlsutil.marshalECPrivateKey lib k = tlsutil.Done keyBytes
        ∧ tlsutil.x509KeyPair lib
            (tlsutil.pemEncodeToMemory lib
               (Some (tlsutil.mkBlock "CERTIFICATE" certBytes)))
            (tlsutil.pemEncodeToMemory lib
               (Some (tlsutil.mkBlock "EC PRIVATE KEY" keyBytes)))
          = tlsutil.Done cert
        ∧ config = {| tlsutil.RootCAs := None;
                      tlsutil.Certificates := [cert];
                      tlsutil.MinVersion := tlsMinVersion;
                      tlsutil.InsecureSkipVerify := true |}
  end.
Proof.
  unfold tlsutil.GenerateX509KeyPairTLSConfig, tlsutil.GenerateX509KeyPair,
    tlsutil.generatePEM.
  destruct (tlsutil.generate lib createCertificate) as [[certBytes key]|err] eqn:Hgen.
  2: { now left. }
  destruct (generate_done certBytes key Hgen) as (k & serialNumber & -> & _).
  cbn [tlsutil.pemBlockForKey].
  destruct (tlsutil.marshalECPrivateKey lib k) as [keyBytes|err] eqn:Hmarshal.
  - destruct (tlsutil.x509KeyPair lib _ _) as [cert|err] eqn:Hpair.
    + now exists certBytes, k, keyBytes, cert.
    + right. now exists certBytes, k, keyBytes.
  - split; [reflexivity|]. now exists certBytes, k, err.
Qed.

End GeneratedKeyPair.

Lemma generate_self_signed_witness :
  let lib := exampleLibs serverSecret (λ _, tlsutil.Done [Byte.x07]) in
  let createCertificate :=
    exampleCreateCertificate serverSecret (λ _, tlsutil.Done [Byte.x07]) in
  ∃ k serialNumber template,
    @tlsutil.ECDSAKey lib 7%Z = tlsutil.ECDSAKey k
    ∧ tlsutil.ecdsaGenerateKey lib = tlsutil.Done k
    ∧ tlsutil.randInt lib (2 ^ 128) = tlsutil.Done serialNumber
    ∧ createCertificate template template (tlsutil.publicKey lib k) k
      = tlsutil.Done [Byte.x30; Byte.x82]
    ∧ tlsutil.SerialNumber template = serialNumber
    ∧ tlsutil.NotBefore template = tlsutil.timeNow lib
    ∧ tlsutil.NotAfter template
      = tlsutil.timeAdd lib (tlsutil.timeNow lib) 31536000000000000
    ∧ tlsutil.KeyUsage template = 5%Z
    ∧ tlsutil.ExtKeyUsages template = [tlsutil.ExtKeyUsageServerAuth]
    ∧ tlsutil.BasicConstraintsValid template = true
    ∧ match tlsutil.parseIP lib "localhost" with
      | Some ip => tlsutil.IPAddresses template = [ip] ∧ tlsutil.DNSNames template = []
      | None => tlsutil.IPAddresses template = []
                ∧ tlsutil.DNSNames template = ["localhost"]
      end.
Proof.
  intros lib createCertificate.
  apply (generate_self_signed lib createCertificate [Byte.x30; Byte.x82]
           (@tlsutil.ECDSAKey lib 7%Z)).
  reflexivity.
Defined.

Example GenerateX509KeyPairTLSConfig_exits_on_marshal_failure :
  tlsutil.GenerateX509KeyPairTLSConfig
    (exampleLibs serverSecret (λ _, tlsutil.Failed (tlsutil.LibraryError "unknown curve")))
    (exampleCreateCertificate serverSecret
       (λ _, tlsutil.Failed (tlsutil.LibraryError "unknown curve")))
    771
  = tlsutil.Exits 2.
Proof. reflexivity. Qed.

(** ** The namespaces a run of discovery lists *)

(** A discovery that succeeds has listed all the namespaces it was
    given, in order. *)
Lemma rangeNamespaces_success_calls (rt : Runtime) (woc : wfOperationCtx)
    (nss : list string) (sidecars sidecars' : list apiv1.Container)
    (addresses addresses' : list string) :
  value (rangeNamespaces rt woc nss sidecars addresses) = (sidecars', addresses', None) →
  calls (rangeNamespaces rt woc nss sidecars addresses) = listingCalls nss.
Proof.
  revert sidecars addresses.
  induction nss as [|ns rest IH]; intros sidecars addresses; [reflexivity|].
  cbn [rangeNamespaces]. rewrite value_bind, calls_bind.
  cbn [listConfigMaps calls value fst snd].
  destruct (getConfigMaps (controller woc) ns "AgentPlugin") as [cms|err];
    [|discriminate].
  destruct (rangeConfigMaps rt cms sidecars addresses) as [[sc ad]|err];
    [|discriminate].
  intros Hok. now rewrite (IH sc ad Hok).
Qed.

(** X5. In every run of [getAgentPlugins] the calls are listings, with
    the plugin marker, of namespaces that are the controller's namespace
    or the workflow's namespace, and no namespace is listed twice: when
    the two are the same namespace there is at most one listing.  With
    plugins disabled nothing is listed; with plugins enabled a run that
    succeeds has listed both namespaces. *)
Theorem getAgentPlugins_lists_each_namespace_once (rt : Runtime) (woc : wfOperationCtx) :
  ∃ listed,
    calls (getAgentPlugins rt woc) = listingCalls listed
    ∧ NoDup listed
    ∧ (∀ ns, ns ∈ listed →
         ns = namespace (controller woc)
         ∨ ns = metav1.Namespace (wfv1.wfMeta (wf woc)))
    ∧ (namespace (controller woc) = metav1.Namespace (wfv1.wfMeta (wf woc)) →
       (length listed ≤ 1)%nat)
    ∧ (plugins (controller woc) = false → listed = [])
    ∧ (plugins (controller woc) = true →
       (∃ sidecars addresses,
          value (getAgentPlugins rt woc) = (sidecars, addresses, None)) →
       ∀ ns, ns = namespace (controller woc)
             ∨ ns = metav1.Namespace (wfv1.wfMeta (wf woc)) →
             ns ∈ listed).
Proof.
  destruct (visitedNamespaces_distinct rt woc) as (Hnodup & Hmem & Hsame).
  rewrite getAgentPlugins_unfold.
  destruct (plugins (controller woc)) eqn:Hplugins.
  - destruct (value (rangeNamespaces rt woc (visitedNamespaces rt woc) [] []))
      as [[sc ad] [err|]] eqn:Hvalue.
    + destruct (rangeNamespaces_calls_prefix rt woc (visitedNamespaces rt woc) [] [])
        as (listed & Hcalls & [rest Hrest]).
      exists listed. split; [exact Hcalls|].
      rewrite Hrest in Hnodup, Hmem, Hsame.
      split; [now apply NoDup_app in Hnodup as [? _]|].
      split; [intros ns Hin; apply Hmem, elem_of_app; now left|].
      split.
      * intros Heq. apply Hsame in Heq. apply (f_equal length) in Heq.
        rewrite length_app in Heq. cbn [length] in Heq. lia.
      * split; [discriminate|]. intros _ (sc' & ad' & Hok). discriminate Hok.
    + exists (visitedNamespaces rt woc).
      split; [now apply (rangeNamespaces_success_calls rt woc _ [] sc [] ad)|].
      split; [exact Hnodup|].
      split; [intros ns Hin; now apply Hmem|].
      split.
      * intros Heq. rewrite (Hsame Heq). cbn [length]. lia.
      * split; [discriminate|]. intros _ _ ns Hns. now apply Hmem.
  - exists []. split; [reflexivity|]. split; [constructor|].
    split; [intros ns Hin; now apply elem_of_nil in Hin|].
    split; [intros _; cbn [length]; lia|].
    split; [reflexivity|discriminate].
Qed.

Example getAgentPlugins_lists_one_namespace :
  calls (getAgentPlugins exampleRuntime
           (wocOf "argo" oneTask (pluginController [slackPlugin] [mailPlugin])))
  = listingCalls ["argo"]
  ∧ calls (getAgentPlugins exampleRuntime
             (wocOf "prod" oneTask (pluginController [slackPlugin] [mailPlugin])))
    = listingCalls ["argo"; "prod"]
  ∧ calls (getAgentPlugins exampleRuntime (wocOf "prod" oneTask plainController)) = [].
Proof. vm_compute. repeat split. Qed.
